(** * Hubble Nova [pkg] audit module: a shallow embedding and its properties

    The development follows [hubblestack_nova/pkg.py]: policy documents
    are YAML values, [_merge_yaml] gathers them, [_get_tags] resolves them
    into a tag table for the host, and [audit] evaluates every resolved
    rule against the package inventory and aggregates the verdicts.

    Modelling conventions.
    - YAML scalars are strings; sequences are lists; a mapping that is
      given to the code is the list of its items in the order the [dict]
      yields them, which is all the code sees of it.
    - Python 2 iterates a [dict] in the order of its hash slots.  Where
      the code puts a new key into a [dict] that it iterates later (the
      categories of the merged policy, the tags of the tag table), the
      place of the key among the others is left to [dict_new], of which
      only this is known: the items are the old ones and the new one.
    - A resolved rule ([formatted_data] / [tag_data]) is only ever looked
      up, updated and popped, never iterated: it is a [gmap string yaml].
    - Python exceptions are the [Raise] case of [result].
    - [__salt__['pkg.version']], [__grains__.get('osfinger')] and
      [fnmatch.fnmatch] are collaborators, taken as section variables. *)

From Stdlib Require Import String Ascii List NArith Bool.
From stdpp Require Import gmap strings list fin_maps.

Local Open Scope string_scope.
Local Open Scope list_scope.
Set Warnings "-register-all".

(** ** Values *)

Inductive yaml : Type :=
  | YStr (s : string)
  | YSeq (l : list yaml)
  | YMap (d : list (string * yaml)).

Abbreviation dict := (list (string * yaml)).
Abbreviation rule := (gmap string yaml).

(** ** Exceptions *)

Inductive exn : Type :=
  | KeyError (k : string)
  | AttributeError
  | TypeError.

Inductive result (A : Type) : Type :=
  | Ok (a : A)
  | Raise (e : exn).

Arguments Ok {A} a.
Arguments Raise {A} e.

#[global] Instance result_ret : MRet result := fun _ a => Ok a.
#[global] Instance result_bind : MBind result := fun _ _ f m =>
  match m with
  | Ok a => f a
  | Raise e => Raise e
  end.

Definition returns {A} (m : result A) : Prop := ∃ a, m = Ok a.

(** A [for] loop whose body may raise. *)
Fixpoint foldM {A S} (f : S → A → result S) (s : S) (l : list A) : result S :=
  match l with
  | [] => Ok s
  | x :: l' => s' ← f s x; foldM f s' l'
  end.

(** ** Python dictionaries over YAML mappings *)

(** [d.get(k)] *)
Fixpoint dict_get (k : string) (d : dict) : option yaml :=
  match d with
  | [] => None
  | (k', v) :: d' => if decide (k' = k) then Some v else dict_get k d'
  end.

(** [k in d] *)
Definition dict_has (k : string) (d : dict) : bool :=
  match dict_get k d with Some _ => true | None => false end.

(** [d[k] = v]: the value of a key the [dict] has is replaced where it
    is (a key it does not have goes through [dict_new] below). *)
Fixpoint dict_set (k : string) (v : yaml) (d : dict) : dict :=
  match d with
  | [] => [(k, v)]
  | (k', v') :: d' =>
      if decide (k' = k) then (k, v) :: d' else (k', v') :: dict_set k v d'
  end.

(** [d[k] = v] for a key [k] that [d] does not have yet.  The slot the
    key falls into, and so the order in which the [dict] is iterated
    from then on, depends on the hashes of the keys and on the history of
    the table; the items themselves are those of [d] and the new one. *)
Class DictOrder : Type := {
  dict_new : ∀ {V : Type}, string → V → list (string * V) → list (string * V);
  dict_new_perm : ∀ (V : Type) (k : string) (v : V) (d : list (string * V)),
    dict_new k v d ≡ₚ d ++ [(k, v)]
}.

(** The order of a [dict] that keeps its keys as they came. *)
Definition insertion_order : DictOrder :=
  {| dict_new := λ V k v d, d ++ [(k, v)];
     dict_new_perm := λ V k v d, Permutation_refl (d ++ [(k, v)]) |}.

(** [d[k]] *)
Definition dict_getitem (k : string) (d : dict) : result yaml :=
  match dict_get k d with
  | Some v => Ok v
  | None => Raise (KeyError k)
  end.

(** The attribute lookups [v.get] and [v.iteritems] exist on mappings only. *)
Definition as_dict (v : yaml) : result dict :=
  match v with
  | YMap d => Ok d
  | _ => Raise AttributeError
  end.

(** [v.get(k, dflt)] *)
Definition py_get (v : yaml) (k : string) (dflt : yaml) : result yaml :=
  d ← as_dict v; Ok (default dflt (dict_get k d)).

(** [v.iteritems()] *)
Definition py_iteritems (v : yaml) : result (list (string * yaml)) :=
  as_dict v.

Fixpoint chars (s : string) : list yaml :=
  match s with
  | EmptyString => []
  | String c s' => YStr (String c EmptyString) :: chars s'
  end.

(** [for x in v]: the elements of a sequence, the keys of a mapping, the
    characters of a string. *)
Definition py_iter (v : yaml) : list yaml :=
  match v with
  | YSeq l => l
  | YMap d => (YStr ∘ fst) <$> d
  | YStr s => chars s
  end.

(** [v[k]] for a string key [k]. *)
Definition py_getitem (v : yaml) (k : string) : result yaml :=
  match v with
  | YMap d => dict_getitem k d
  | _ => Raise TypeError
  end.

Fixpoint is_prefix (p s : string) : bool :=
  match p, s with
  | EmptyString, _ => true
  | String a p', String b s' => Ascii.eqb a b && is_prefix p' s'
  | String _ _, EmptyString => false
  end.

Fixpoint is_substring (p s : string) : bool :=
  is_prefix p s ||
  match s with
  | EmptyString => false
  | String _ s' => is_substring p s'
  end.

(** [k in v] for a string [k]: key of a mapping, element of a sequence,
    substring of a string. *)
Definition py_in (k : string) (v : yaml) : bool :=
  match v with
  | YMap d => dict_has k d
  | YSeq l => existsb (λ x, match x with YStr s => String.eqb s k | _ => false end) l
  | YStr s => is_substring k s
  end.

(** A resolved rule from a mapping: keys are unique in a Python [dict]. *)
Definition to_rule (d : dict) : rule := list_to_map d.

(** [k in r] on a rule. *)
Definition rule_has (k : string) (r : rule) : bool :=
  match r !! k with Some _ => true | None => false end.

(** [r[k]] on a rule. *)
Definition rule_getitem (k : string) (r : rule) : result yaml :=
  match r !! k with
  | Some v => Ok v
  | None => Raise (KeyError k)
  end.

(** [r.pop(k)] *)
Definition rule_pop (k : string) (r : rule) : result (yaml * rule) :=
  match r !! k with
  | Some v => Ok (v, delete k r)
  | None => Raise (KeyError k)
  end.

(** Dictionary keys, and the members of a [set], must be hashable:
    hashing a [list] or a [dict] is a [TypeError]. *)
Definition hashable (v : yaml) : result string :=
  match v with
  | YStr s => Ok s
  | _ => Raise TypeError
  end.

Definition hashable_opt (v : option yaml) : result (option string) :=
  match v with
  | None => Ok None
  | Some v => s ← hashable v; Ok (Some s)
  end.

(** ** Strings *)

(** [s.partition(sep)] for a one-character separator: the part before the
    first separator, the separator itself, and the part after it; when
    there is no separator, the whole string and two empty strings. *)
Fixpoint partition (sep : ascii) (s : string) : string * string * string :=
  match s with
  | EmptyString => ("", "", "")
  | String c s' =>
      if Ascii.eqb c sep then ("", String sep EmptyString, s')
      else let '(h, m, t) := partition sep s' in (String c h, m, t)
  end.

(** Truth value of a string: empty is false. *)
Definition truthy (s : string) : bool :=
  match s with EmptyString => false | _ => true end.

(** ** [distutils.version.LooseVersion] under Python 2

    [LooseVersion.parse] splits the string with the pattern
    [(\d+ | [a-z]+ | \.)], drops the empty pieces and the dots, and turns
    the digit runs into integers.  Every other maximal run of characters
    stays as a string component.  [__init__] parses only a string that is
    not empty: the object made from the empty string has no attribute
    [version].  [__cmp__] is [cmp(self.version, other.version)]: it
    raises [AttributeError] when a side has no [version], and else
    compares the component lists with Python 2's [cmp]: lexicographic on
    lists, numeric on integers, bytewise on strings, and an integer
    before any string. *)

Inductive cclass : Type := Digit | Lower | Dot | Other.

Definition classify (c : ascii) : cclass :=
  let n := N_of_ascii c in
  if (48 <=? n)%N && (n <=? 57)%N then Digit
  else if (97 <=? n)%N && (n <=? 122)%N then Lower
  else if (n =? 46)%N then Dot
  else Other.

Definition same_run (a b : cclass) : bool :=
  match a, b with
  | Digit, Digit | Lower, Lower | Other, Other => true
  | _, _ => false
  end.

Fixpoint runs (s : string) : list (cclass * string) :=
  match s with
  | EmptyString => []
  | String c s' =>
      let k := classify c in
      match runs s' with
      | (k', t) :: rs =>
          if same_run k k' then (k, String c t) :: rs
          else (k, String c EmptyString) :: (k', t) :: rs
      | [] => [(k, String c EmptyString)]
      end
  end.

Inductive component : Type :=
  | CInt (n : N)
  | CStr (s : string).

(** [int(s)] on a run of decimal digits. *)
Definition int_of_digits (s : string) : N :=
  fold_left (λ acc c, (10 * acc + (N_of_ascii c - 48))%N) (list_ascii_of_string s) 0%N.

Definition component_of_run (r : cclass * string) : option component :=
  match r with
  | (Dot, _) => None
  | (Digit, s) => Some (CInt (int_of_digits s))
  | (_, s) => Some (CStr s)
  end.

(** [LooseVersion.parse]: the value of the attribute [version]. *)
Definition parse (vstring : string) : list component :=
  omap component_of_run (runs vstring).

(** [LooseVersion(vstring)]: the attribute [version], when there is one. *)
Definition LooseVersion (vstring : string) : option (list component) :=
  if truthy vstring then Some (parse vstring) else None.

Definition component_cmp (a b : component) : comparison :=
  match a, b with
  | CInt m, CInt n => N.compare m n
  | CInt _, CStr _ => Lt
  | CStr _, CInt _ => Gt
  | CStr s, CStr t => String.compare s t
  end.

Fixpoint version_cmp (a b : list component) : comparison :=
  match a, b with
  | [], [] => Eq
  | [], _ :: _ => Lt
  | _ :: _, [] => Gt
  | x :: a', y :: b' =>
      match component_cmp x y with
      | Eq => version_cmp a' b'
      | c => c
      end
  end.

(** [cmp(a, b) <= 0] and [cmp(a, b) >= 0] on component lists. *)
Definition version_le (a b : list component) : bool :=
  match version_cmp a b with Gt => false | _ => true end.

Definition version_ge (a b : list component) : bool :=
  match version_cmp a b with Lt => false | _ => true end.

(** [a <= b] and [a >= b] on [LooseVersion] objects, through [__cmp__]. *)
Definition LooseVersion_le (a b : option (list component)) : result bool :=
  match a, b with
  | Some x, Some y => Ok (version_le x y)
  | _, _ => Raise AttributeError
  end.

Definition LooseVersion_ge (a b : option (list component)) : result bool :=
  match a, b with
  | Some x, Some y => Ok (version_ge x y)
  | _, _ => Raise AttributeError
  end.

(** ** The tag table

    [ret] of [_get_tags]: tag to the rules resolved under it, as the
    list of the items of the [dict] in the order it yields them. *)

Abbreviation tagtable := (list (string * list rule)).

(** [ret.get(tag)] *)
Fixpoint tt_get (tag : string) (tt : tagtable) : option (list rule) :=
  match tt with
  | [] => None
  | (t, rs) :: tt' => if decide (t = tag) then Some rs else tt_get tag tt'
  end.

(** [tag in ret] *)
Definition tt_has (tag : string) (tt : tagtable) : bool :=
  match tt_get tag tt with Some _ => true | None => false end.

(** [ret[tag].append(r)] *)
Fixpoint tt_append (tag : string) (r : rule) (tt : tagtable) : result tagtable :=
  match tt with
  | [] => Raise (KeyError tag)
  | (t, rs) :: tt' =>
      if decide (t = tag) then Ok ((t, rs ++ [r]) :: tt')
      else tt'' ← tt_append tag r tt'; Ok ((t, rs) :: tt'')
  end.

(** ** Verdict buckets and reports *)

(** [ret] of [audit] while the rules are evaluated, with the list of the
    names [pkg.version] was called on, latest last. *)
Record verdicts : Type := Verdicts {
  Success : list rule;
  Failure : list rule;
  Controlled : list rule;
  pkg_version_calls : list yaml
}.

Definition no_verdicts : verdicts := Verdicts [] [] [] [].

Definition to_Success (r : rule) (st : verdicts) : verdicts :=
  Verdicts (Success st ++ [r]) (Failure st) (Controlled st) (pkg_version_calls st).

Definition to_Failure (r : rule) (st : verdicts) : verdicts :=
  Verdicts (Success st) (Failure st ++ [r]) (Controlled st) (pkg_version_calls st).

Definition to_Controlled (r : rule) (st : verdicts) : verdicts :=
  Verdicts (Success st) (Failure st) (Controlled st ++ [r]) (pkg_version_calls st).

Definition called (name : yaml) (st : verdicts) : verdicts :=
  Verdicts (Success st) (Failure st) (Controlled st) (pkg_version_calls st ++ [name]).

(** An element of a bucket of the returned report: the whole rule when
    [verbose], else [{tag: description}], or for a controlled rule
    [{tag: {'description': description, 'control': control_reason}}]. *)
Inductive entry : Type :=
  | Full (r : rule)
  | Brief (tag : string) (description : option string)
  | BriefControlled (tag : string) (description : option string) (control : string).

Record report : Type := Report {
  rSuccess : list entry;
  rFailure : list entry;
  rControlled : option (list entry)
}.

Section Nova.

(** The order of the dictionaries that the code builds. *)
Context {order : DictOrder}.

(** [__grains__.get('osfinger')] *)
Variable osfinger : option string.
(** [__salt__['pkg.version']] *)
Variable pkg_version : yaml → string.
(** [fnmatch.fnmatch] *)
Variable fnmatch : string → string → bool.

(** ** [_merge_yaml] *)

(** [ret['pkg'][topkey].append({key: val})] *)
Definition merged_append (topkey key : string) (val : yaml) (ret : dict) : result dict :=
  pkg ← dict_getitem "pkg" ret;
  lst ← py_getitem pkg topkey;
  match pkg, lst with
  | YMap p, YSeq l =>
      Ok (dict_set "pkg" (YMap (dict_set topkey (YSeq (l ++ [YMap [(key, val)]])) p)) ret)
  | _, _ => Raise AttributeError
  end.

Definition _merge_yaml (ret : dict) (data : yaml) : result dict :=
  let ret := if dict_has "pkg" ret then ret else dict_new "pkg" (YMap []) ret in
  foldM (λ ret topkey,
    src ← py_get data "pkg" (YMap []);
    if py_in topkey src then
      pkg ← dict_getitem "pkg" ret;
      ret ← (if py_in topkey pkg then Ok ret
             else match pkg with
                  | YMap p => Ok (dict_set "pkg" (YMap (dict_new topkey (YSeq []) p)) ret)
                  | _ => Raise TypeError
                  end);
      audits ← py_getitem src topkey;
      items ← py_iteritems audits;
      foldM (λ ret '(key, val), merged_append topkey key val ret) ret items
    else Ok ret) ret ["blacklist"; "whitelist"].

(** ** [_get_tags] *)

(** [tags_dict.get(distro, tags_dict.get('*', []))] *)
Definition select_bucket (tags_dict : dict) : yaml :=
  let wildcard := default (YSeq []) (dict_get "*" tags_dict) in
  match osfinger with
  | Some distro => default wildcard (dict_get distro tags_dict)
  | None => wildcard
  end.

(** [tmp] after [for name, tag in tags.iteritems(): tmp.append({name: tag})] *)
Definition single_entries (tags : dict) : list yaml :=
  (λ '(name, tag), YMap [(name, tag)]) <$> tags.

(** [if isinstance(tags, dict): ... tags = tmp] *)
Definition normalize_bucket (tags : yaml) : yaml :=
  match tags with
  | YMap d => YSeq (single_entries d)
  | _ => tags
  end.

(** The four fields every rule starts from. *)
Definition base_fields (name : string) (tag : yaml) (toplist : string) : rule :=
  <["name" := YStr name]> (<["tag" := tag]> (<["module" := YStr "pkg"]>
    (<["type" := YStr toplist]> ∅))).

(** [tag_data = copy.deepcopy(tag); tag = tag_data.pop('tag')] when the
    TagSpec is a mapping; a bare tag and no per-item fields otherwise. *)
Definition split_tagspec (tag : yaml) : result (yaml * rule) :=
  match tag with
  | YMap d => rule_pop "tag" (to_rule d)
  | _ => Ok (tag, ∅)
  end.

(** The body of the innermost loop: one [name, tag] pair of one item. *)
Definition resolve_item (toplist : string) (audit_data : dict)
    (ret : tagtable) (name : string) (tag : yaml) : result tagtable :=
  '(tag, tag_data) ← split_tagspec tag;
  key ← hashable tag;
  let ret := if tt_has key ret then ret else dict_new key [] ret in
  let formatted_data := base_fields name tag toplist in
  let formatted_data := tag_data ∪ formatted_data in
  let formatted_data := to_rule audit_data ∪ formatted_data in
  '(_, formatted_data) ← rule_pop "data" formatted_data;
  tt_append key formatted_data ret.

(** The loop [for item in tags]. *)
Definition resolve_items (toplist : string) (audit_data : dict)
    (ret : tagtable) (tags : yaml) : result tagtable :=
  foldM (λ ret item,
    pairs ← py_iteritems item;
    foldM (λ ret '(name, tag), resolve_item toplist audit_data ret name tag) ret pairs)
    ret (py_iter tags).

(** The body of the loop over [audit_dict.iteritems()]. *)
Definition resolve_audit (toplist : string) (ret : tagtable) (audit_data : yaml)
    : result tagtable :=
  tags_dict ← py_get audit_data "data" (YMap []);
  tags_dict ← as_dict tags_dict;
  let tags := normalize_bucket (select_bucket tags_dict) in
  audit_data ← as_dict audit_data;
  resolve_items toplist audit_data ret tags.

Definition _get_tags (data : yaml) : result tagtable :=
  pkg ← py_get data "pkg" (YMap []);
  tops ← py_iteritems pkg;
  foldM (λ ret '(toplist, toplevel),
    foldM (λ ret audit_dict,
      audits ← py_iteritems audit_dict;
      foldM (λ ret '(audit_id, audit_data), resolve_audit toplist ret audit_data)
        ret audits)
      ret (py_iter toplevel))
    [] tops.

(** ** [audit]: evaluation of the resolved rules *)

(** [v == s] for a string literal [s]. *)
Definition yaml_is (s : string) (v : yaml) : bool :=
  match v with
  | YStr s' => String.eqb s' s
  | _ => false
  end.

(** The method [partition] exists on strings only. *)
Definition as_str (v : yaml) : result string :=
  match v with
  | YStr s => Ok s
  | _ => Raise AttributeError
  end.

(** [mod, _, version = tag_data['version'].partition('=')], then the swap
    made when nothing follows the separator. *)
Definition split_version (s : string) : string * string :=
  let '(modif, _, version) := partition "=" s in
  if truthy version then (modif, version) else ("", modif).

(** The body of the loop over [__tags__[tag]]. *)
Definition audit_rule (st : verdicts) (tag_data : rule) : result verdicts :=
  if rule_has "control" tag_data then
    Ok (to_Controlled tag_data st)
  else
    name ← rule_getitem "name" tag_data;
    audittype ← rule_getitem "type" tag_data;
    if yaml_is "blacklist" audittype then
      if truthy (pkg_version name)
      then Ok (to_Failure tag_data (called name st))
      else Ok (to_Success tag_data (called name st))
    else if yaml_is "whitelist" audittype then
      match tag_data !! "version" with
      | Some v =>
          s ← as_str v;
          let '(modif, version) := split_version s in
          if String.eqb modif "<" then
            le ← LooseVersion_le (LooseVersion (pkg_version name))
                                 (LooseVersion version);
            if (le : bool)
            then Ok (to_Success tag_data (called name st))
            else Ok (to_Failure tag_data (called name st))
          else if String.eqb modif ">" then
            ge ← LooseVersion_ge (LooseVersion (pkg_version name))
                                 (LooseVersion version);
            if (ge : bool)
            then Ok (to_Success tag_data (called name st))
            else Ok (to_Failure tag_data (called name st))
          else if negb (truthy modif) then
            if String.eqb (pkg_version name) version
            then Ok (to_Success tag_data (called name st))
            else Ok (to_Failure tag_data (called name st))
          else
            let tag_data := <["error" := YStr ("Invalid modifier " +:+ modif)]> tag_data in
            Ok (to_Failure tag_data st)
      | None =>
          if truthy (pkg_version name)
          then Ok (to_Success tag_data (called name st))
          else Ok (to_Failure tag_data (called name st))
      end
    else Ok st.

(** The loop over [__tags__], filtered by the glob [tags]. *)
Definition evaluate (__tags__ : tagtable) (tags : string) : result verdicts :=
  foldM (λ st '(tag, rules),
    if fnmatch tag tags then foldM audit_rule st rules else Ok st)
    no_verdicts __tags__.

(** ** [audit]: aggregation *)

(** One turn of the loop that collapses [Failure] or [Success]; [seen]
    is [tags_descriptions]. *)
Definition collapse_step (acc : gset (string * option string) * list entry)
    (tag_data : rule) : result (gset (string * option string) * list entry) :=
  let '(seen, out) := acc in
  tag ← rule_getitem "tag" tag_data;
  let description := tag_data !! "description" in
  tag ← hashable tag;
  description ← hashable_opt description;
  if bool_decide ((tag, description) ∈ seen) then Ok (seen, out)
  else Ok ({[(tag, description)]} ∪ seen, out ++ [Brief tag description]).

Definition collapse (bucket : list rule) : result (list entry) :=
  '(_, out) ← foldM collapse_step (∅, []) bucket; Ok out.

(** One turn of the loop that collapses [Controlled]; [seen] is
    [control_reasons]. *)
Definition collapse_controlled_step
    (acc : gset (string * option string * string) * list entry)
    (tag_data : rule) : result (gset (string * option string * string) * list entry) :=
  let '(seen, out) := acc in
  tag ← rule_getitem "tag" tag_data;
  let control_reason := default (YStr "") (tag_data !! "control") in
  let description := tag_data !! "description" in
  tag ← hashable tag;
  description ← hashable_opt description;
  control_reason ← hashable control_reason;
  if bool_decide ((tag, description, control_reason) ∈ seen) then Ok (seen, out)
  else Ok ({[(tag, description, control_reason)]} ∪ seen,
           out ++ [BriefControlled tag description control_reason]).

Definition collapse_controlled (bucket : list rule) : result (list entry) :=
  '(_, out) ← foldM collapse_controlled_step (∅, []) bucket; Ok out.

(** [if not ret['Controlled']: ret.pop('Controlled')] *)
Definition drop_empty (l : list entry) : option (list entry) :=
  match l with
  | [] => None
  | _ => Some l
  end.

Definition aggregate (ret : verdicts) (verbose : bool) : result report :=
  if verbose then
    Ok (Report (Full <$> Success ret) (Full <$> Failure ret)
               (drop_empty (Full <$> Controlled ret)))
  else
    failure ← collapse (Failure ret);
    success ← collapse (Success ret);
    controlled ← collapse_controlled (Controlled ret);
    Ok (Report success failure (drop_empty controlled)).

Definition audit (data_list : list yaml) (tags : string) (verbose : bool)
    : result report :=
  __data__ ← foldM _merge_yaml [] data_list;
  __tags__ ← _get_tags (YMap __data__);
  ret ← evaluate __tags__ tags;
  aggregate ret verbose.

End Nova.

(** ** The sample policy of the module's documentation *)

Definition rsh_buckets : dict :=
  [("CentOS Linux-6", YSeq [
      YMap [("rsh", YMap [("tag", YStr "CIS-2.1.3"); ("version", YStr "4.3.2")])];
      YMap [("rsh-client", YMap [("tag", YStr "CIS-2.1.3"); ("version", YStr ">=4.3.2")])];
      YMap [("rsh-server", YStr "CIS-2.1.4")]]);
   ("CentOS Linux-7", YSeq [
      YMap [("rsh", YStr "CIS-2.1.3")];
      YMap [("rsh-server", YStr "CIS-2.1.4")]]);
   ("*", YSeq [
      YMap [("rsh-client", YStr "CIS-5.1.2")];
      YMap [("rsh-redone-client", YStr "CIS-5.1.2")];
      YMap [("rsh-server", YStr "CIS-5.1.3")];
      YMap [("rsh-redone-server", YStr "CIS-5.1.3")]])].

Definition rsh_audit : dict :=
  [("data", YMap rsh_buckets);
   ("description", YStr "RSH is awesome");
   ("alert", YStr "email");
   ("trigger", YStr "state")].

Definition telnet_audit : dict :=
  [("data", YMap [
      ("CentOS Linux-6", YSeq [YMap [("telnet", YStr "CIS-2.1.1")]]);
      ("*", YSeq [YMap [("telnet", YStr "telnet-bad")]])]);
   ("description", YStr "Telnet is evil");
   ("alert", YStr "email");
   ("trigger", YStr "state")].

Definition sample_policy : yaml :=
  YMap [("pkg", YMap [
    ("blacklist", YMap [("telnet", YMap telnet_audit)]);
    ("whitelist", YMap [("rsh", YMap rsh_audit)])])].

(** An inventory given as a list of installed packages and versions;
    a package that is not installed has the empty version. *)
Fixpoint installed (pkgs : list (string * string)) (n : string) : string :=
  match pkgs with
  | [] => ""
  | (p, v) :: pkgs' => if String.eqb p n then v else installed pkgs' n
  end.

Definition inventory (pkgs : list (string * string)) (name : yaml) : string :=
  match name with
  | YStr n => installed pkgs n
  | _ => ""
  end.

(** A filter that lets every tag through, as the glob ["*"] does. *)
Definition any_tag (tag pat : string) : bool := true.

(** A filter that compares the tag with the pattern literally, as
    [fnmatch] does on a pattern without magic characters. *)
Definition literal_tag (tag pat : string) : bool := String.eqb tag pat.


(** A policy that wants [rsh] on every host under the version
    constraint [v], and the rule [_get_tags] resolves it into. *)
Definition version_policy (v : string) : yaml :=
  YMap [("pkg", YMap [
    ("whitelist", YMap [
      ("rsh", YMap [
        ("data", YMap [
          ("*", YSeq [YMap [("rsh", YMap [("tag", YStr "CIS-2.1.3");
                                          ("version", YStr v)])]])])])])])].

Definition rsh_rule (v : string) : rule :=
  <["version" := YStr v]> (base_fields "rsh" (YStr "CIS-2.1.3") "whitelist").

(** A blacklist rule for the package [telnet] under the tag [telnet-bad]. *)
Definition telnet_rule : rule :=
  base_fields "telnet" (YStr "telnet-bad") "blacklist".

(** A blacklist rule that has been accepted as an exception. *)
Definition controlled_rule : rule :=
  <["control" := YStr "accepted risk"]> telnet_rule.

(** A whitelist rule without a version constraint. *)
Definition rsh_server_rule : rule :=
  base_fields "rsh-server" (YStr "CIS-2.1.4") "whitelist".

(** An audit spec whose bucket for every host is a mapping, and the same
    audit spec with the bucket as a list of single-entry mappings. *)
Definition mapping_audit : dict :=
  [("data", YMap [("*", YMap [("rsh", YStr "CIS-2.1.3");
                               ("rsh-server", YMap [("tag", YStr "CIS-2.1.4")])])]);
   ("description", YStr "RSH is awesome")].

Definition sequence_audit : dict :=
  [("data", YMap [("*", YSeq [YMap [("rsh", YStr "CIS-2.1.3")];
                               YMap [("rsh-server", YMap [("tag", YStr "CIS-2.1.4")])]])]);
   ("description", YStr "RSH is awesome")].

(** An audit spec whose only item has a detailed TagSpec without [tag],
    a policy document with it, and that document once merged. *)
Definition untagged_audit : dict :=
  [("data", YMap [("*", YSeq [YMap [("rsh", YMap [("version", YStr "4.3.2")])]])]);
   ("description", YStr "RSH is awesome")].

Definition untagged_policy : yaml :=
  YMap [("pkg", YMap [("whitelist", YMap [("rsh", YMap untagged_audit)])])].

Definition untagged_merged : yaml :=
  YMap [("pkg", YMap [("whitelist", YSeq [YMap [("rsh", YMap untagged_audit)]])])].

(** Raw verdicts with a repeated record. *)
Definition repeated_verdicts : verdicts :=
  Verdicts [telnet_rule; rsh_server_rule; telnet_rule] [rsh_rule "4.3.2"]
           [controlled_rule; controlled_rule] [].

(** A detailed TagSpec that has a description of its own, an audit spec
    with it and with a description at its own level, and a policy
    document with that audit spec. *)
Definition described_tagspec : yaml :=
  YMap [("tag", YStr "CIS-2.1.3"); ("description", YStr "rsh must be there")].

Definition described_audit : dict :=
  [("data", YMap [("*", YSeq [YMap [("rsh", described_tagspec)]])]);
   ("description", YStr "RSH is awesome")].

Definition described_policy : yaml :=
  YMap [("pkg", YMap [("whitelist", YMap [("rsh", YMap described_audit)])])].

(** A rule of a category that [audit] does not know. *)
Definition greylist_rule : rule :=
  base_fields "telnet" (YStr "telnet-bad") "greylist".

(** A whitelist rule whose version constraint is a sequence. *)
Definition listed_version_rule : rule :=
  <["version" := YSeq [YStr "4.3.2"]]>
    (base_fields "rsh" (YStr "CIS-2.1.3") "whitelist").

(** A blacklist rule whose description is a sequence. *)
Definition listed_description_rule : rule :=
  <["description" := YSeq [YStr "Telnet"; YStr "is evil"]]> telnet_rule.

(** The sample policy once merged, and its tag table on CentOS 6. *)
Definition sample_merged : yaml :=
  YMap [("pkg", YMap [
    ("blacklist", YSeq [YMap [("telnet", YMap telnet_audit)]]);
    ("whitelist", YSeq [YMap [("rsh", YMap rsh_audit)]])])].

Definition sample_table : tagtable :=
  match _get_tags (order := insertion_order) (Some "CentOS Linux-6") sample_merged with
  | Ok table => table
  | Raise _ => []
  end.

(** ** Vocabulary of the statements *)

(** The rule in the words of the specification: the audit spec without
    its [data] field, overlaid with the four base fields, overlaid with
    the per-item fields. *)
Definition overlay_as_specified (toplist : string) (audit_data : dict)
    (name : string) (tag : yaml) (tag_data : rule) : rule :=
  tag_data ∪ (base_fields name tag toplist ∪ delete "data" (to_rule audit_data)).

(** The rule as [_get_tags] builds it: the base fields, updated with the
    per-item fields, updated with the audit spec, [data] popped. *)
Definition overlay_as_built (toplist : string) (audit_data : dict)
    (name : string) (tag : yaml) (tag_data : rule) : rule :=
  delete "data" (to_rule audit_data ∪ (tag_data ∪ base_fields name tag toplist)).

Inductive verdict : Type := VSuccess | VFailure | VControlled.

(** [st'] is [st] with the record [r] appended to the bucket [v], the
    other two buckets as they were. *)
Definition classified (v : verdict) (r : rule) (st st' : verdicts) : Prop :=
  match v with
  | VSuccess =>
      Success st' = Success st ++ [r] ∧ Failure st' = Failure st
      ∧ Controlled st' = Controlled st
  | VFailure =>
      Success st' = Success st ∧ Failure st' = Failure st ++ [r]
      ∧ Controlled st' = Controlled st
  | VControlled =>
      Success st' = Success st ∧ Failure st' = Failure st
      ∧ Controlled st' = Controlled st ++ [r]
  end.

(** A TagSpec of the data model: a bare tag string, or a mapping with a
    string under [tag]. *)
Definition well_formed_tagspec (t : yaml) : Prop :=
  match t with
  | YStr _ => True
  | YMap d => ∃ s, dict_get "tag" d = Some (YStr s)
  | YSeq _ => False
  end.

(** The policy tree [data] holds, for the host [osfinger], the package
    item [name: tagspec]: under some category and audit id, in the bucket
    selected for the host. *)
Definition holds_item (osfinger : option string) (data : yaml)
    (name : string) (tagspec : yaml) : Prop :=
  ∃ pkg toplist toplevel audit_dict audits audit_id audit_data tags_dict item pairs,
    py_get data "pkg" (YMap []) = Ok (YMap pkg)
    ∧ (toplist, toplevel) ∈ pkg
    ∧ audit_dict ∈ py_iter toplevel
    ∧ py_iteritems audit_dict = Ok audits
    ∧ (audit_id, YMap audit_data) ∈ audits
    ∧ dict_get "data" audit_data = Some (YMap tags_dict)
    ∧ item ∈ py_iter (normalize_bucket (select_bucket osfinger tags_dict))
    ∧ py_iteritems item = Ok pairs
    ∧ (name, tagspec) ∈ pairs.

(** Deduplication that keeps the first occurrence of every element, in
    the order of the list. *)
Fixpoint first_occurrences {A} `{EqDecision A} (l : list A) : list A :=
  match l with
  | [] => []
  | x :: l' => x :: filter (λ y, y ≠ x) (first_occurrences l')
  end.

(** [f] on every element, up to the first exception. *)
Fixpoint mapM {A B} (f : A → result B) (l : list A) : result (list B) :=
  match l with
  | [] => Ok []
  | x :: l' => y ← f x; ys ← mapM f l'; Ok (y :: ys)
  end.

(** The pair [(tag, description)] a record is deduplicated by. *)
Definition brief_key (r : rule) : result (string * option string) :=
  tag ← rule_getitem "tag" r;
  tag ← hashable tag;
  description ← hashable_opt (r !! "description");
  Ok (tag, description).

(** The triple [(tag, description, control_reason)] a controlled record
    is deduplicated by. *)
Definition controlled_key (r : rule) : result (string * option string * string) :=
  tag ← rule_getitem "tag" r;
  tag ← hashable tag;
  description ← hashable_opt (r !! "description");
  control_reason ← hashable (default (YStr "") (r !! "control"));
  Ok (tag, description, control_reason).

(** [{tag: description}] *)
Definition brief (k : string * option string) : entry := Brief k.1 k.2.

(** [{tag: {'description': description, 'control': control_reason}}] *)
Definition brief_controlled (k : string * option string * string) : entry :=
  BriefControlled k.1.1 k.1.2 k.2.

(** A loop that appends [mk k] for every key [k] not seen before. *)
Definition dedup_step {K E} `{Countable K} (key : rule → result K) (mk : K → E)
    (acc : gset K * list E) (r : rule) : result (gset K * list E) :=
  k ← key r;
  if bool_decide (k ∈ acc.1) then Ok acc
  else Ok ({[k]} ∪ acc.1, acc.2 ++ [mk k]).

(** The field [k] of the last rule under [tag] in a resolved table. *)
Definition last_field (tag k : string) (res : result tagtable) : option yaml :=
  match res with
  | Ok table => rs ← tt_get tag table; r ← last rs; r !! k
  | Raise _ => None
  end.

(** No record of the [Success] and [Failure] buckets has a [control]
    field. *)
Definition uncontrolled (st : verdicts) : Prop :=
  ∀ x, x ∈ Success st ++ Failure st → x !! "control" = None.

(** The first value under [k] in a list of items: the common shape of
    [dict_get] and [tt_get]. *)
Fixpoint assoc_get {V : Type} (k : string) (l : list (string * V)) : option V :=
  match l with
  | [] => None
  | (k', v) :: l' => if decide (k' = k) then Some v else assoc_get k l'
  end.

(** *** Vocabulary for the merger *)

(** The audits a policy document gives for a category, when it has the
    category as a mapping. *)
Definition category (topkey : string) (data : yaml) : option dict :=
  match data with
  | YMap d =>
      match dict_get "pkg" d with
      | Some (YMap p) =>
          match dict_get topkey p with
          | Some (YMap audits) => Some audits
          | _ => None
          end
      | _ => None
      end
  | _ => None
  end.

Definition mapping_or_absent (v : option yaml) : bool :=
  match v with
  | None | Some (YMap _) => true
  | Some _ => false
  end.

(** A policy document of the data model: a mapping whose [pkg] section,
    when there is one, is a mapping whose [blacklist] and [whitelist],
    when there, are mappings. *)
Definition well_shaped (data : yaml) : bool :=
  match data with
  | YMap d =>
      match dict_get "pkg" d with
      | None => true
      | Some (YMap p) =>
          mapping_or_absent (dict_get "blacklist" p)
          && mapping_or_absent (dict_get "whitelist" p)
      | Some _ => false
      end
  | _ => false
  end.

(** The body of the loop of [_merge_yaml] over the two categories. *)
Definition merge_category {order : DictOrder} (topkey : string) (data : yaml) (ret : dict)
    : result dict :=
  src ← py_get data "pkg" (YMap []);
  if py_in topkey src then
    pkg ← dict_getitem "pkg" ret;
    ret ← (if py_in topkey pkg then Ok ret
           else match pkg with
                | YMap p => Ok (dict_set "pkg" (YMap (dict_new topkey (YSeq []) p)) ret)
                | _ => Raise TypeError
                end);
    audits ← py_getitem src topkey;
    items ← py_iteritems audits;
    foldM (λ ret '(key, val), merged_append topkey key val ret) ret items
  else Ok ret.

(** What a merged policy holds for a category. *)
Definition merged_category (topkey : string) (ret : dict) : option yaml :=
  match dict_get "pkg" ret with
  | Some (YMap p) => dict_get topkey p
  | _ => None
  end.

(** A category list after one more document: untouched when the
    document lacks the category, else extended by one single-entry
    mapping per audit, in the order of the document. *)
Definition extend (acc : option (list yaml)) (c : option dict) : option (list yaml) :=
  match c with
  | None => acc
  | Some audits => Some (default [] acc ++ single_entries audits)
  end.

(** The list a category merges into: one single-entry mapping per audit
    of every document that has the category; no list when none has it. *)
Definition merged_list (topkey : string) (docs : list yaml) : option yaml :=
  match omap (category topkey) docs with
  | [] => None
  | ds => Some (YSeq (concat (single_entries <$> ds)))
  end.

(** *** Vocabulary for the tag table *)

(** A rule has the four fields [audit] reads or reports, and no [data]. *)
Definition resolved_rule (r : rule) : Prop :=
  is_Some (r !! "name") ∧ is_Some (r !! "tag") ∧ is_Some (r !! "module")
  ∧ is_Some (r !! "type") ∧ r !! "data" = None.

(** Every tag is listed once, with at least one rule, and every rule is
    a resolved rule. *)
Definition table_ok (tt : tagtable) : Prop :=
  NoDup tt.*1
  ∧ ∀ tag rules, (tag, rules) ∈ tt → rules ≠ [] ∧ Forall resolved_rule rules.

(** The number of records in the three buckets. *)
Definition records (st : verdicts) : nat :=
  length (Success st) + length (Failure st) + length (Controlled st).

(** The character [c] occurs in [s]. *)
Fixpoint occurs (c : ascii) (s : string) : bool :=
  match s with
  | EmptyString => false
  | String c' s' => Ascii.eqb c' c || occurs c s'
  end.

(** A whitelist rule for package [name] with the version constraint [v]
    and no [control] field. *)
Definition whitelist_rule (r : rule) (name : yaml) (v : string) : Prop :=
  r !! "control" = None ∧ r !! "name" = Some name
  ∧ r !! "type" = Some (YStr "whitelist") ∧ r !! "version" = Some (YStr v).

(** ** Basic facts *)

Lemma to_rule_lookup (d : dict) (k : string) : to_rule d !! k = dict_get k d.
Proof.
  unfold to_rule. induction d as [|[k' v] d IH]; simpl.
  - apply lookup_empty.
  - rewrite lookup_insert. destruct (decide (k' = k)); [done | apply IH].
Qed.

Lemma foldM_ext {A S} (f g : S → A → result S) (s : S) (l : list A) :
  (∀ s x, f s x = g s x) → foldM f s l = foldM g s l.
Proof.
  intros H. revert s. induction l as [|x l IH]; intros s; simpl; [done|].
  rewrite H. destruct (g s x); simpl; [apply IH | done].
Qed.

Lemma foldM_not_returns {A S} (f : S → A → result S) (x : A) (l : list A) :
  x ∈ l → (∀ s, ¬ returns (f s x)) → ∀ s, ¬ returns (foldM f s l).
Proof.
  intros Hin Hx. induction l as [|y l IH]; [by apply elem_of_nil in Hin|].
  intros s. simpl. apply elem_of_cons in Hin as [->|Hin].
  - destruct (f s y) as [s'|e] eqn:E; simpl.
    + destruct (Hx s). rewrite E. by eexists.
    + by intros [? ?].
  - destruct (f s y) as [s'|e]; simpl; [by apply IH | by intros [? ?]].
Qed.

Lemma classified_exclusive (v w : verdict) (r r' : rule) (st st' : verdicts) :
  classified v r st st' → classified w r' st st' → v = w.
Proof.
  assert (Hne : ∀ (l : list rule) x, l ≠ l ++ [x]).
  { intros l x H. apply (f_equal length) in H. rewrite length_app in H.
    simpl in H. lia. }
  destruct v, w; simpl; intros (H1 & H2 & H3) (H4 & H5 & H6); try done;
    rewrite ?H1, ?H2, ?H3 in *; exfalso;
    first [ by eapply Hne | by eapply Hne; symmetry ].
Qed.

Lemma success_only r name st :
  classified VSuccess r st (to_Success r (called name st))
  ∧ ¬ classified VFailure r st (to_Success r (called name st)).
Proof.
  assert (Hs : classified VSuccess r st (to_Success r (called name st))) by done.
  split; [done|]. intros Hf.
  by pose proof (classified_exclusive _ _ _ _ _ _ Hs Hf).
Qed.

Lemma failure_only r name st :
  classified VFailure r st (to_Failure r (called name st))
  ∧ ¬ classified VSuccess r st (to_Failure r (called name st)).
Proof.
  assert (Hf : classified VFailure r st (to_Failure r (called name st))) by done.
  split; [done|]. intros Hs.
  by pose proof (classified_exclusive _ _ _ _ _ _ Hf Hs).
Qed.

Lemma partition_no_sep (c : ascii) (s : string) :
  occurs c s = false → partition c s = (s, "", "").
Proof.
  induction s as [|a s IH]; simpl; [done|].
  destruct (Ascii.eqb a c); simpl; [done|].
  intros H. by rewrite (IH H).
Qed.

Lemma partition_sep (c : ascii) (p v : string) :
  occurs c p = false → partition c (p +:+ String c v) = (p, String c "", v).
Proof.
  induction p as [|a p IH]; simpl.
  - by rewrite Ascii.eqb_refl.
  - destruct (Ascii.eqb a c); simpl; [done|].
    intros H. by rewrite (IH H).
Qed.

Lemma truthy_nonempty (s : string) : s ≠ "" → truthy s = true.
Proof. by destruct s. Qed.

Lemma split_version_sep (P V : string) :
  occurs "=" P = false → V ≠ "" → split_version (P +:+ String "=" V) = (P, V).
Proof.
  intros HP HV. unfold split_version.
  by rewrite (partition_sep _ _ _ HP), (truthy_nonempty _ HV).
Qed.

Lemma split_version_no_sep (X : string) :
  occurs "=" X = false → split_version X = ("", X).
Proof. intros HX. unfold split_version. by rewrite (partition_no_sep _ _ HX). Qed.

(** *** Lookups in a [dict] whatever the order of its items *)

Section assoc.
Context {V : Type}.
Implicit Types l : list (string * V).

Lemma assoc_get_None l (k : string) : assoc_get k l = None ↔ k ∉ l.*1.
Proof.
  induction l as [|[k' v] l IH]; simpl.
  - split; [by intros _ ?%elem_of_nil | done].
  - rewrite not_elem_of_cons. destruct (decide (k' = k)) as [->|Hne].
    + split; [done | by intros [? _]].
    + rewrite IH. split; [by intros ? | by intros [_ ?]].
Qed.

Lemma assoc_get_Some_elem_of l (k : string) (v : V) :
  assoc_get k l = Some v → (k, v) ∈ l.
Proof.
  induction l as [|[k' v'] l IH]; simpl; [done|].
  destruct (decide (k' = k)) as [->|Hne].
  - intros [= ->]. left.
  - intros Hl. right. by apply IH.
Qed.

Lemma assoc_get_unique l (k : string) (v : V) :
  NoDup l.*1 → (k, v) ∈ l → assoc_get k l = Some v.
Proof.
  induction l as [|[k' v'] l IH]; simpl.
  - by intros _ ?%elem_of_nil.
  - intros [Hk' Hnd]%NoDup_cons [[= -> ->]|Hin]%elem_of_cons.
    + by rewrite decide_True.
    + rewrite decide_False; [by apply IH|].
      intros ->. apply Hk'. by apply (list_elem_of_fmap_2 fst l (k, v)).
Qed.

Lemma assoc_get_perm l l' (k : string) :
  NoDup l.*1 → l ≡ₚ l' → assoc_get k l = assoc_get k l'.
Proof.
  intros Hnd Hp.
  assert (Hnd' : NoDup l'.*1) by (by rewrite <- Hp).
  destruct (assoc_get k l) as [v|] eqn:E.
  - apply assoc_get_Some_elem_of in E. rewrite Hp in E.
    symmetry. by apply assoc_get_unique.
  - apply assoc_get_None in E. rewrite Hp in E.
    symmetry. by apply assoc_get_None.
Qed.

Lemma assoc_get_snoc_ne l (k k' : string) (v : V) :
  k' ≠ k → assoc_get k' (l ++ [(k, v)]) = assoc_get k' l.
Proof.
  intros Hne. induction l as [|[k0 v0] l IH]; simpl.
  - by rewrite decide_False.
  - destruct (decide (k0 = k')); [done | apply IH].
Qed.

Lemma assoc_get_new l l' (k : string) (v : V) :
  k ∉ l.*1 → l' ≡ₚ l ++ [(k, v)] → assoc_get k l' = Some v.
Proof.
  intros Hk Hp. destruct (assoc_get k l') as [v'|] eqn:E.
  - apply assoc_get_Some_elem_of in E. rewrite Hp in E.
    apply elem_of_app in E as [Hin|Hin%list_elem_of_singleton].
    + destruct Hk. by apply (list_elem_of_fmap_2 fst l (k, v')).
    + by injection Hin as ->.
  - apply assoc_get_None in E. destruct E. rewrite Hp, fmap_app.
    apply elem_of_app. right. simpl. left.
Qed.

Lemma assoc_get_new_ne l l' (k k' : string) (v : V) :
  NoDup l.*1 → k ∉ l.*1 → l' ≡ₚ l ++ [(k, v)] → k' ≠ k →
  assoc_get k' l' = assoc_get k' l.
Proof.
  intros Hnd Hk Hp Hne.
  rewrite <- (assoc_get_snoc_ne l k k' v Hne). symmetry.
  apply assoc_get_perm; [|done].
  rewrite fmap_app. apply NoDup_app. split_and!; [done | | apply NoDup_singleton].
  intros x Hx ->%list_elem_of_singleton. by apply Hk.
Qed.

Lemma new_keys_NoDup l l' (k : string) (v : V) :
  NoDup l.*1 → k ∉ l.*1 → l' ≡ₚ l ++ [(k, v)] → NoDup l'.*1.
Proof.
  intros Hnd Hk Hp. rewrite Hp, fmap_app.
  apply NoDup_app. split_and!; [done | | apply NoDup_singleton].
  intros x Hx ->%list_elem_of_singleton. by apply Hk.
Qed.

End assoc.

Lemma dict_get_assoc (k : string) (d : dict) : dict_get k d = assoc_get k d.
Proof. induction d as [|[k' v] d IH]; simpl; [done|]. by rewrite IH. Qed.

Lemma tt_get_assoc (k : string) (tt : tagtable) : tt_get k tt = assoc_get k tt.
Proof. induction tt as [|[k' v] tt IH]; simpl; [done|]. by rewrite IH. Qed.

(** *** Deduplication *)

Section first_occurrences.
Context {A : Type} `{EqDecision A}.
Implicit Types l : list A.

Lemma first_occurrences_elem_of l x : x ∈ first_occurrences l ↔ x ∈ l.
Proof.
  induction l as [|y l IH]; simpl; [done|].
  rewrite !elem_of_cons, list_elem_of_filter, IH.
  destruct (decide (x = y)) as [->|Hne]; [split; intros _; by left|].
  split; [intros [?|[_ ?]] | intros [?|?]]; first [by left | by right].
Qed.

Lemma first_occurrences_NoDup l : NoDup (first_occurrences l).
Proof.
  induction l as [|y l IH]; simpl; [constructor|].
  apply NoDup_cons. split; [|by apply NoDup_filter].
  rewrite list_elem_of_filter. intros [Hy _]. by apply Hy.
Qed.

Lemma first_occurrences_sublist l : first_occurrences l `sublist_of` l.
Proof.
  induction l as [|y l IH]; simpl; [done|].
  apply sublist_skip. etrans; [apply sublist_filter | done].
Qed.

Lemma first_occurrences_snoc l x :
  first_occurrences (l ++ [x]) =
    if decide (x ∈ l) then first_occurrences l else first_occurrences l ++ [x].
Proof.
  induction l as [|y l IH]; simpl; [done|].
  rewrite IH. destruct (decide (x ∈ l)) as [Hin|Hin].
  - rewrite decide_True; [done | by right].
  - rewrite filter_app. destruct (decide (x = y)) as [->|Hne].
    + rewrite decide_True by left. rewrite filter_cons_False by (by intros ?).
      by rewrite filter_nil, app_nil_r.
    + rewrite decide_False by (by intros [?|?]%elem_of_cons).
      by rewrite filter_cons_True.
Qed.

End first_occurrences.

Section dedup.
Context {K E : Type} `{Countable K} (key : rule → result K) (mk : K → E).

Lemma dedup_loop (prev : list K) (bucket : list rule) :
  foldM (dedup_step key mk)
        (list_to_set prev, mk <$> first_occurrences prev) bucket
  = (keys ← mapM key bucket;
     Ok (list_to_set (prev ++ keys), mk <$> first_occurrences (prev ++ keys))).
Proof.
  revert prev. induction bucket as [|r bucket IH]; intros prev; simpl.
  - by rewrite app_nil_r.
  - destruct (key r) as [k|e] eqn:Ek; simpl.
    2: { unfold dedup_step. by rewrite Ek. }
    assert (Hnext : dedup_step key mk
                      (list_to_set prev, mk <$> first_occurrences prev) r
                    = Ok (list_to_set (prev ++ [k]) : gset K,
                          mk <$> first_occurrences (prev ++ [k]))).
    { unfold dedup_step. rewrite Ek. simpl.
      rewrite first_occurrences_snoc, list_to_set_snoc_L.
      destruct (decide (k ∈ prev)) as [Hin|Hin].
      - rewrite bool_decide_eq_true_2 by (by apply elem_of_list_to_set).
        f_equal. f_equal. apply (elem_of_list_to_set (C:=gset K)) in Hin.
        apply leibniz_equiv. apply set_equiv. intros x.
        rewrite elem_of_union, elem_of_singleton.
        split; [by left | by intros [?| ->]].
      - rewrite bool_decide_eq_false_2 by (by rewrite elem_of_list_to_set).
        f_equal. f_equal; [apply union_comm_L | by rewrite fmap_app]. }
    rewrite Hnext. simpl. rewrite IH.
    destruct (mapM key bucket) as [keys|e]; simpl; [|done].
    by rewrite <- app_assoc.
Qed.

Lemma dedup_from_empty (bucket : list rule) :
  ('(_, out) ← foldM (dedup_step key mk) (∅, []) bucket; Ok out)
  = (keys ← mapM key bucket; Ok (mk <$> first_occurrences keys)).
Proof.
  pose proof (dedup_loop [] bucket) as Hl. simpl in Hl. rewrite Hl.
  by destruct (mapM key bucket).
Qed.

End dedup.

Lemma collapse_step_dedup acc r :
  collapse_step acc r = dedup_step brief_key brief acc r.
Proof.
  destruct acc as [seen out]. unfold collapse_step, dedup_step, brief_key.
  destruct (rule_getitem "tag" r) as [tag|e]; simpl; [|done].
  destruct (hashable tag) as [t|e]; simpl; [|done].
  by destruct (hashable_opt (r !! "description")).
Qed.

Lemma collapse_controlled_step_dedup acc r :
  collapse_controlled_step acc r = dedup_step controlled_key brief_controlled acc r.
Proof.
  destruct acc as [seen out].
  unfold collapse_controlled_step, dedup_step, controlled_key.
  destruct (rule_getitem "tag" r) as [tag|e]; simpl; [|done].
  destruct (hashable tag) as [t|e]; simpl; [|done].
  destruct (hashable_opt (r !! "description")) as [d|e]; simpl; [|done].
  by destruct (hashable (default (YStr "") (r !! "control"))).
Qed.

(** The loop with its set of seen pairs computes the first occurrences
    of the keys of the bucket, and raises where a key cannot be had. *)
Lemma collapse_spec (bucket : list rule) :
  collapse bucket
  = (keys ← mapM brief_key bucket; Ok (brief <$> first_occurrences keys)).
Proof.
  unfold collapse. rewrite (foldM_ext _ _ _ _ collapse_step_dedup).
  apply dedup_from_empty.
Qed.

Lemma collapse_controlled_spec (bucket : list rule) :
  collapse_controlled bucket
  = (keys ← mapM controlled_key bucket;
     Ok (brief_controlled <$> first_occurrences keys)).
Proof.
  unfold collapse_controlled.
  rewrite (foldM_ext _ _ _ _ collapse_controlled_step_dedup).
  apply dedup_from_empty.
Qed.

#[local] Instance brief_inj : Inj (=) (=) brief.
Proof. intros [t1 d1] [t2 d2]. unfold brief. simpl. by intros [= -> ->]. Qed.

#[local] Instance brief_controlled_inj : Inj (=) (=) brief_controlled.
Proof.
  intros [[t1 d1] c1] [[t2 d2] c2]. unfold brief_controlled. simpl.
  by intros [= -> -> ->].
Qed.

Lemma drop_empty_NoDup (l : list entry) : NoDup l → NoDup (default [] (drop_empty l)).
Proof. by destruct l. Qed.

Section Properties.

Context {order : DictOrder}.
Variable osfinger : option string.
Variable pkg_version : yaml → string.
Variable fnmatch : string → string → bool.

(** *** The resolver *)

Lemma tt_get_fresh (key : string) (tt : tagtable) :
  tt_get key tt = None → tt_get key (dict_new key [] tt) = Some [].
Proof.
  rewrite !tt_get_assoc. intros Hk%assoc_get_None.
  apply (assoc_get_new tt); [done | apply dict_new_perm].
Qed.

Lemma tt_append_get (key : string) (r : rule) (tt : tagtable) (rs : list rule) :
  tt_get key tt = Some rs →
  ∃ tt', tt_append key r tt = Ok tt' ∧ tt_get key tt' = Some (rs ++ [r]).
Proof.
  induction tt as [|[t rs0] tt IH]; simpl; [done|].
  destruct (decide (t = key)) as [->|Hne].
  - intros [= ->]. eexists. split; [done|]. simpl. by rewrite decide_True.
  - intros H. destruct (IH H) as (tt' & -> & Hget). simpl.
    eexists. split; [done|]. simpl. by rewrite decide_False.
Qed.

Lemma overlay_as_built_lookup toplist audit_data name tag tag_data (k : string) :
  k ≠ "data" →
  overlay_as_built toplist audit_data name tag tag_data !! k =
    match dict_get k audit_data with
    | Some v => Some v
    | None => match tag_data !! k with
              | Some v => Some v
              | None => base_fields name tag toplist !! k
              end
    end.
Proof.
  intros Hk. unfold overlay_as_built.
  rewrite lookup_delete_ne by done. rewrite !lookup_union, to_rule_lookup.
  destruct (dict_get k audit_data), (tag_data !! k),
    (base_fields name tag toplist !! k); done.
Qed.

(** What [resolve_item] does on a TagSpec that splits and whose tag is
    hashable, under an audit spec that has its [data] field. *)
Lemma resolve_item_ok toplist audit_data ret name tagspec tag tag_data key :
  split_tagspec tagspec = Ok (tag, tag_data) →
  hashable tag = Ok key →
  is_Some (dict_get "data" audit_data) →
  ∃ ret', resolve_item toplist audit_data ret name tagspec = Ok ret'
    ∧ tt_get key ret' =
        Some (default [] (tt_get key ret)
              ++ [overlay_as_built toplist audit_data name tag tag_data]).
Proof.
  intros Hs Hh [dv Hd]. unfold resolve_item. rewrite Hs. simpl. rewrite Hh. simpl.
  unfold rule_pop.
  rewrite (lookup_union_Some_l _ _ _ dv) by (by rewrite to_rule_lookup). simpl.
  unfold tt_has. destruct (tt_get key ret) as [rs|] eqn:Hg; simpl.
  - by apply tt_append_get.
  - change [overlay_as_built toplist audit_data name tag tag_data]
      with ([] ++ [overlay_as_built toplist audit_data name tag tag_data]).
    apply tt_append_get. by apply tt_get_fresh.
Qed.

(** C1, as the code has it: the rule starts from the four base fields
    [name], [tag], [module], [type]; the per-item fields are laid over
    them; the fields of the audit spec are laid over the result last, and
    [data] is removed.  So on a field that both the audit spec and the
    item define, the value of the audit spec is the one in the rule; a
    per-item field shows only where the audit spec has none. *)
Theorem C1_audit_spec_fields_win
    (toplist : string) (audit_data : dict) (ret : tagtable) (name : string)
    (tagspec tag : yaml) (tag_data : rule) (key : string) :
  split_tagspec tagspec = Ok (tag, tag_data) →
  hashable tag = Ok key →
  is_Some (dict_get "data" audit_data) →
  let r := overlay_as_built toplist audit_data name tag tag_data in
  (∃ ret', resolve_item toplist audit_data ret name tagspec = Ok ret'
     ∧ tt_get key ret' = Some (default [] (tt_get key ret) ++ [r]))
  ∧ r !! "data" = None
  ∧ (∀ k v, k ≠ "data" → dict_get k audit_data = Some v → r !! k = Some v)
  ∧ (∀ k v, k ≠ "data" → dict_get k audit_data = None →
       tag_data !! k = Some v → r !! k = Some v)
  ∧ (∀ k, k ≠ "data" → dict_get k audit_data = None → tag_data !! k = None →
       r !! k = base_fields name tag toplist !! k).
Proof.
  intros Hs Hh Hd r. split_and!.
  - by eapply resolve_item_ok.
  - apply lookup_delete_eq.
  - intros k v Hk Ha. unfold r. by rewrite overlay_as_built_lookup, Ha.
  - intros k v Hk Ha Ht. unfold r. by rewrite overlay_as_built_lookup, Ha, Ht.
  - intros k Hk Ha Ht. unfold r. by rewrite overlay_as_built_lookup, Ha, Ht.
Qed.

(** C6: the bucket of an audit spec is the one under the host
    fingerprint when the [data] mapping has that key, whether or not it
    also has the key ["*"]; else the one under ["*"] when it has that
    key; and when it has neither, the audit spec adds no rule: the tag
    table comes back as it was. *)
Theorem C6_exact_match_first
    (h toplist : string) (ret : tagtable) (audit_data tags_dict : dict) :
  dict_get "data" audit_data = Some (YMap tags_dict) →
  match dict_get h tags_dict, dict_get "*" tags_dict with
  | Some b, _ | None, Some b =>
      select_bucket (Some h) tags_dict = b
      ∧ resolve_audit (Some h) toplist ret (YMap audit_data)
        = resolve_items toplist audit_data ret (normalize_bucket b)
  | None, None =>
      resolve_audit (Some h) toplist ret (YMap audit_data) = Ok ret
  end.
Proof.
  intros Hd. unfold resolve_audit, py_get, select_bucket. simpl.
  rewrite Hd. simpl.
  destruct (dict_get h tags_dict), (dict_get "*" tags_dict); done.
Qed.

Lemma resolve_item_ext toplist (a1 a2 : dict) ret name tag :
  is_Some (dict_get "data" a1) → is_Some (dict_get "data" a2) →
  delete "data" (to_rule a1) = delete "data" (to_rule a2) →
  resolve_item toplist a1 ret name tag = resolve_item toplist a2 ret name tag.
Proof.
  intros [v1 H1] [v2 H2] Heq. unfold resolve_item.
  destruct (split_tagspec tag) as [[t td]|e]; simpl; [|done].
  destruct (hashable t) as [key|e]; simpl; [|done].
  unfold rule_pop.
  rewrite (lookup_union_Some_l _ _ _ v1) by (by rewrite to_rule_lookup).
  rewrite (lookup_union_Some_l _ _ _ v2) by (by rewrite to_rule_lookup).
  simpl. by rewrite !delete_union, Heq.
Qed.

Lemma resolve_items_ext toplist (a1 a2 : dict) ret tags :
  is_Some (dict_get "data" a1) → is_Some (dict_get "data" a2) →
  delete "data" (to_rule a1) = delete "data" (to_rule a2) →
  resolve_items toplist a1 ret tags = resolve_items toplist a2 ret tags.
Proof.
  intros H1 H2 Heq. unfold resolve_items. apply foldM_ext. intros s item.
  destruct (py_iteritems item) as [pairs|e]; simpl; [|done].
  apply foldM_ext. intros s' [name tag]. by apply resolve_item_ext.
Qed.

Lemma resolve_item_returns toplist audit_data ret name tagspec :
  well_formed_tagspec tagspec → is_Some (dict_get "data" audit_data) →
  returns (resolve_item toplist audit_data ret name tagspec).
Proof.
  intros Hwf Hd.
  assert (∃ tag tag_data key,
    split_tagspec tagspec = Ok (tag, tag_data) ∧ hashable tag = Ok key)
    as (tag & tag_data & key & Hs & Hh).
  { destruct tagspec as [s| |d]; simpl in *; [by eauto | done |].
    destruct Hwf as [s Hs]. unfold rule_pop. rewrite to_rule_lookup, Hs. by eauto. }
  destruct (resolve_item_ok toplist audit_data ret name _ _ _ _ Hs Hh Hd)
    as (ret' & Hret & _).
  by exists ret'.
Qed.

Lemma resolve_single_entries_returns toplist audit_data (d : dict) ret :
  Forall well_formed_tagspec d.*2 → is_Some (dict_get "data" audit_data) →
  returns (resolve_items toplist audit_data ret (YSeq (single_entries d))).
Proof.
  intros Hwf Hd. unfold resolve_items. simpl. revert ret.
  induction d as [|[name tag] d IH]; intros ret; simpl; [by eexists|].
  apply Forall_cons in Hwf as [Htag Hwf].
  destruct (resolve_item_returns toplist audit_data ret name tag Htag Hd)
    as [ret' ->].
  simpl. by apply IH.
Qed.

(** C8: when the bucket selected for the host is a mapping from names
    to TagSpecs, resolution goes through the list of its single-entry
    mappings, and gives what it gives on an audit spec that differs only
    in having that list as its bucket; the conversion itself raises
    nothing, so with TagSpecs of the data model the resolution returns. *)
Theorem C8_mapping_bucket_is_normalized
    (toplist : string) (ret : tagtable) (a1 a2 t1 t2 d : dict) :
  dict_get "data" a1 = Some (YMap t1) →
  dict_get "data" a2 = Some (YMap t2) →
  delete "data" (to_rule a1) = delete "data" (to_rule a2) →
  select_bucket osfinger t1 = YMap d →
  select_bucket osfinger t2 = YSeq (single_entries d) →
  resolve_audit osfinger toplist ret (YMap a1)
    = resolve_items toplist a1 ret (YSeq (single_entries d))
  ∧ resolve_audit osfinger toplist ret (YMap a1)
    = resolve_audit osfinger toplist ret (YMap a2)
  ∧ (Forall well_formed_tagspec d.*2 →
       returns (resolve_audit osfinger toplist ret (YMap a1))).
Proof.
  intros H1 H2 Heq Hm Hs.
  assert (E1 : resolve_audit osfinger toplist ret (YMap a1)
               = resolve_items toplist a1 ret (YSeq (single_entries d))).
  { unfold resolve_audit, py_get. simpl. rewrite H1. simpl. by rewrite Hm. }
  assert (E2 : resolve_audit osfinger toplist ret (YMap a2)
               = resolve_items toplist a2 ret (YSeq (single_entries d))).
  { unfold resolve_audit, py_get. simpl. rewrite H2. simpl. by rewrite Hs. }
  split_and!; [done | |].
  - rewrite E1, E2. by apply resolve_items_ext.
  - intros Hwf. rewrite E1. by apply resolve_single_entries_returns.
Qed.

(** C9: a TagSpec given as a mapping without the key [tag] makes the
    resolution of its item raise [KeyError] on [tag], and a policy tree
    that holds such an item for the host makes [_get_tags] raise: it
    returns no tag table. *)
Theorem C9_tag_is_required (d : dict) :
  dict_get "tag" d = None →
  (∀ toplist audit_data ret name,
     resolve_item toplist audit_data ret name (YMap d) = Raise (KeyError "tag"))
  ∧ (∀ data name, holds_item osfinger data name (YMap d) →
       ¬ returns (_get_tags osfinger data)).
Proof.
  intros Hd.
  assert (Hitem : ∀ toplist audit_data ret name,
    resolve_item toplist audit_data ret name (YMap d) = Raise (KeyError "tag")).
  { intros. unfold resolve_item, split_tagspec, rule_pop.
    by rewrite to_rule_lookup, Hd. }
  split; [done|].
  intros data name
    (pkg & toplist & toplevel & audit_dict & audits & audit_id & audit_data
     & tags_dict & item & pairs & Hp & Htop & Had & Hau & Hid & Hdata & Hit
     & Hpairs & Hin).
  unfold _get_tags. rewrite Hp. simpl.
  apply (foldM_not_returns _ _ _ Htop). intros ret.
  apply (foldM_not_returns _ _ _ Had). clear ret. intros ret.
  rewrite Hau. simpl.
  apply (foldM_not_returns _ _ _ Hid). clear ret. intros ret.
  unfold resolve_audit, py_get. simpl. rewrite Hdata. simpl.
  unfold resolve_items.
  apply (foldM_not_returns _ _ _ Hit). clear ret. intros ret.
  rewrite Hpairs. simpl.
  apply (foldM_not_returns _ _ _ Hin). clear ret. intros ret.
  rewrite Hitem. by intros [? ?].
Qed.

(** *** The evaluation of a rule *)

(** How a whitelist rule with a version constraint is evaluated, in
    terms of the modifier and version the constraint splits into. *)
Lemma audit_rule_version (st : verdicts) (r : rule) (name : yaml) (v : string) :
  whitelist_rule r name v →
  audit_rule pkg_version st r =
    let '(modif, version) := split_version v in
    if String.eqb modif "<" then
      le ← LooseVersion_le (LooseVersion (pkg_version name)) (LooseVersion version);
      if (le : bool)
      then Ok (to_Success r (called name st)) else Ok (to_Failure r (called name st))
    else if String.eqb modif ">" then
      ge ← LooseVersion_ge (LooseVersion (pkg_version name)) (LooseVersion version);
      if (ge : bool)
      then Ok (to_Success r (called name st)) else Ok (to_Failure r (called name st))
    else if negb (truthy modif) then
      if String.eqb (pkg_version name) version
      then Ok (to_Success r (called name st)) else Ok (to_Failure r (called name st))
    else Ok (to_Failure (<["error" := YStr ("Invalid modifier " +:+ modif)]> r) st).
Proof.
  intros (Hc & Hn & Ht & Hv). unfold audit_rule, rule_has, rule_getitem.
  rewrite Hc, Hn, Ht, Hv. simpl. by destruct (split_version v).
Qed.

(** C2, as the code has it: a version constraint that starts with [=]
    (an empty prefix before the separator) is an exact-match constraint
    on what follows the [=].  The rule is Success when the installed
    version string equals it and Failure otherwise, and the record put in
    the bucket is the rule itself, with no [error] field added. *)
Theorem C2_empty_prefix_is_exact_match
    (st : verdicts) (r : rule) (name : yaml) (X : string) :
  whitelist_rule r name ("=" +:+ X) →
  audit_rule pkg_version st r =
    Ok (if String.eqb (pkg_version name) X
        then to_Success r (called name st)
        else to_Failure r (called name st)).
Proof.
  intros H. rewrite (audit_rule_version _ _ _ _ H).
  unfold split_version. simpl. destruct X; simpl;
    by destruct (String.eqb _ _).
Qed.

(** C3, as the code has it: a version constraint [P=V] whose prefix [P]
    is not empty, is neither [<] nor [>] and holds no [=], and whose
    version [V] is not empty, makes the rule a Failure whose record
    carries [error = "Invalid modifier P"]; no exception is raised, the
    package is not queried, and the rules after it are evaluated from the
    resulting buckets. *)
Theorem C3_invalid_modifier_is_reported
    (st : verdicts) (r : rule) (name : yaml) (P V : string) (rest : list rule) :
  whitelist_rule r name (P +:+ "=" +:+ V) →
  occurs "=" P = false → P ≠ "" → P ≠ "<" → P ≠ ">" → V ≠ "" →
  let r' := <["error" := YStr ("Invalid modifier " +:+ P)]> r in
  audit_rule pkg_version st r = Ok (to_Failure r' st)
  ∧ classified VFailure r' st (to_Failure r' st)
  ∧ r' !! "error" = Some (YStr ("Invalid modifier " +:+ P))
  ∧ pkg_version_calls (to_Failure r' st) = pkg_version_calls st
  ∧ foldM (audit_rule pkg_version) st (r :: rest)
    = foldM (audit_rule pkg_version) (to_Failure r' st) rest.
Proof.
  intros H Hsep HP Hlt Hgt HV r'.
  assert (Hstep : audit_rule pkg_version st r = Ok (to_Failure r' st)).
  { rewrite (audit_rule_version _ _ _ _ H). unfold split_version.
    change ("=" +:+ V) with (String "=" V). rewrite (partition_sep _ _ _ Hsep).
    rewrite (truthy_nonempty _ HV), (truthy_nonempty _ HP).
    destruct (String.eqb_spec P "<"); [done|].
    destruct (String.eqb_spec P ">"); done. }
  split_and!; [done | done | apply lookup_insert_eq | done |].
  simpl. by rewrite Hstep.
Qed.

(** C4: a rule without a [control] field whose type is [blacklist] is
    Success if and only if the package query on its name returns the
    empty string, and Failure otherwise; a rule without a [control] field
    whose type is [whitelist] and that has no [version] field is Success
    if and only if the query returns a non-empty string, and Failure
    otherwise. *)
Theorem C4_presence_rules (st : verdicts) (rb rw : rule) (nb nw : yaml) :
  rb !! "control" = None → rb !! "name" = Some nb →
  rb !! "type" = Some (YStr "blacklist") →
  rw !! "control" = None → rw !! "name" = Some nw →
  rw !! "type" = Some (YStr "whitelist") → rw !! "version" = None →
  (∃ st', audit_rule pkg_version st rb = Ok st'
     ∧ (classified VSuccess rb st st' ↔ pkg_version nb = "")
     ∧ (classified VFailure rb st st' ↔ pkg_version nb ≠ ""))
  ∧ (∃ st', audit_rule pkg_version st rw = Ok st'
     ∧ (classified VSuccess rw st st' ↔ pkg_version nw ≠ "")
     ∧ (classified VFailure rw st st' ↔ pkg_version nw = "")).
Proof.
  intros Hbc Hbn Hbt Hwc Hwn Hwt Hwv. split.
  - unfold audit_rule, rule_has, rule_getitem. rewrite Hbc, Hbn, Hbt. simpl.
    destruct (pkg_version nb) as [|a s] eqn:E; simpl; eexists; (split; [done|]).
    + destruct (success_only rb nb st) as [Hyes Hno]. repeat split; intros; try done; by destruct Hno.
    + destruct (failure_only rb nb st) as [Hyes Hno]. repeat split; intros; try done; by destruct Hno.
  - unfold audit_rule, rule_has, rule_getitem. rewrite Hwc, Hwn, Hwt, Hwv. simpl.
    destruct (pkg_version nw) as [|a s] eqn:E; simpl; eexists; (split; [done|]).
    + destruct (failure_only rw nw st) as [Hyes Hno]. repeat split; intros; try done; by destruct Hno.
    + destruct (success_only rw nw st) as [Hyes Hno]. repeat split; intros; try done; by destruct Hno.
Qed.

Lemma audit_rule_control (st : verdicts) (r : rule) :
  is_Some (r !! "control") → audit_rule pkg_version st r = Ok (to_Controlled r st).
Proof. intros [c Hc]. unfold audit_rule, rule_has. by rewrite Hc. Qed.

Lemma audit_rule_keeps (st st' : verdicts) (r : rule) :
  audit_rule pkg_version st r = Ok st' →
  (∀ x, x ∈ Controlled st → x ∈ Controlled st')
  ∧ (uncontrolled st → uncontrolled st').
Proof.
  unfold audit_rule, rule_has, rule_getitem, uncontrolled.
  destruct (r !! "control") as [c|] eqn:Hc; simpl.
  { intros [= <-]. simpl. split; [set_solver | done]. }
  assert (He : ∀ e, (<["error" := e]> r) !! "control" = None).
  { intros e. by rewrite lookup_insert_ne. }
  destruct (r !! "name") as [name|]; simpl; [|done].
  destruct (r !! "type") as [audittype|]; simpl; [|done].
  intros H.
  repeat match type of H with
         | context [LooseVersion_le ?a ?b] => destruct (LooseVersion_le a b)
         | context [LooseVersion_ge ?a ?b] => destruct (LooseVersion_ge a b)
         | context [if ?b then _ else _] => destruct b
         | context [match ?o with Some _ => _ | None => _ end] => destruct o as [[]|]
         | context [let '(_, _) := ?p in _] => destruct p
         | _ => progress simpl in H
         end; simplify_eq/=; simplify_eq; simpl;
    (split; [done|]); intros Hu x; rewrite ?elem_of_app, ?list_elem_of_singleton;
    intros Hx; destruct_or?; subst; try done; apply Hu; set_solver.
Qed.

Lemma rules_keep (rules : list rule) (st st' : verdicts) :
  foldM (audit_rule pkg_version) st rules = Ok st' →
  (∀ x, x ∈ Controlled st → x ∈ Controlled st')
  ∧ (uncontrolled st → uncontrolled st')
  ∧ (∀ r, r ∈ rules → is_Some (r !! "control") → r ∈ Controlled st').
Proof.
  revert st. induction rules as [|r rules IH]; intros st; simpl.
  - intros [= <-]. split_and!; [done | done | set_solver].
  - destruct (audit_rule pkg_version st r) as [st1|e] eqn:E; simpl; [|done].
    intros H. destruct (IH _ H) as (Hm & Hu & Hc).
    destruct (audit_rule_keeps _ _ _ E) as [Hm1 Hu1].
    split_and!; [auto | auto |].
    intros r0 [Heq|Hin]%elem_of_cons Hr0; [subst r0|by apply Hc].
    rewrite (audit_rule_control st r Hr0) in E. simplify_eq.
    apply Hm. simpl. apply elem_of_app. right. apply list_elem_of_singleton. done.
Qed.

Lemma tags_keep (tt : tagtable) (tags : string) (st st' : verdicts) :
  foldM (λ st '(tag, rules),
    if fnmatch tag tags then foldM (audit_rule pkg_version) st rules else Ok st)
    st tt = Ok st' →
  (∀ x, x ∈ Controlled st → x ∈ Controlled st')
  ∧ (uncontrolled st → uncontrolled st')
  ∧ (∀ tag rules r, (tag, rules) ∈ tt → fnmatch tag tags = true → r ∈ rules →
       is_Some (r !! "control") → r ∈ Controlled st').
Proof.
  revert st. induction tt as [|[t rs] tt IH]; intros st; simpl.
  - intros [= <-]. split_and!; [done | done | set_solver].
  - destruct (fnmatch t tags) eqn:Em.
    + destruct (foldM _ st rs) as [st1|e] eqn:E; simpl; [|done].
      intros H. destruct (IH _ H) as (Hm & Hu & Hc).
      destruct (rules_keep _ _ _ E) as (Hm1 & Hu1 & Hc1).
      split_and!; [auto | auto |].
      intros tag rules r [[= -> ->]|Hin]%elem_of_cons Hf Hr Hctl; [|by eapply Hc].
      apply Hm. by apply Hc1.
    + simpl. intros H. destruct (IH _ H) as (Hm & Hu & Hc).
      split_and!; [auto | auto |].
      intros tag rules r [[= -> ->]|Hin]%elem_of_cons Hf Hr Hctl; [congruence|].
      by eapply Hc.
Qed.

(** C5: a rule of the tag table that sits under a tag matching the
    filter and has a [control] field is put in the Controlled bucket, and
    in no other; the step that does so returns at once, whatever the
    rule's type, version and install state, and calls the package query
    not at all. *)
Theorem C5_control_short_circuits
    (tt : tagtable) (tags tag : string) (rules : list rule) (r : rule) :
  (tag, rules) ∈ tt → fnmatch tag tags = true → r ∈ rules →
  is_Some (r !! "control") →
  (∀ st, audit_rule pkg_version st r = Ok (to_Controlled r st)
         ∧ classified VControlled r st (to_Controlled r st)
         ∧ pkg_version_calls (to_Controlled r st) = pkg_version_calls st)
  ∧ (∀ st, evaluate pkg_version fnmatch tt tags = Ok st →
       r ∈ Controlled st ∧ (r ∉ Success st) ∧ (r ∉ Failure st)).
Proof.
  intros Htt Hm Hr Hctl. split.
  - intros st. split_and!; [by apply audit_rule_control | done | done].
  - intros st Hev. unfold evaluate in Hev.
    destruct (tags_keep _ _ _ _ Hev) as (_ & Hu & Hc).
    assert (Hun : uncontrolled st) by (apply Hu; intros x; set_solver).
    split_and!.
    + by eapply Hc.
    + intros Hin. destruct Hctl as [c Hc']. specialize (Hun r).
      rewrite Hun in Hc'; [done | set_solver].
    + intros Hin. destruct Hctl as [c Hc']. specialize (Hun r).
      rewrite Hun in Hc'; [done | set_solver].
Qed.


(** *** The aggregator *)

(** C7: with [verbose] the three buckets come back record for record,
    in their order (and [Controlled] is left out when empty); without it,
    [Success] and [Failure] become the entries [{tag: description}] of
    the first occurrences of the pairs [(tag, description)], in order,
    [Controlled] the entries of the first occurrences of the triples
    [(tag, description, control_reason)], and no bucket of the report
    holds an entry twice. *)
Theorem C7_aggregation
    (ret : verdicts) (ks kf : list (string * option string))
    (kc : list (string * option string * string)) :
  mapM brief_key (Success ret) = Ok ks →
  mapM brief_key (Failure ret) = Ok kf →
  mapM controlled_key (Controlled ret) = Ok kc →
  aggregate ret true
    = Ok (Report (Full <$> Success ret) (Full <$> Failure ret)
                 (drop_empty (Full <$> Controlled ret)))
  ∧ default [] (drop_empty (Full <$> Controlled ret)) = Full <$> Controlled ret
  ∧ ∃ rep, aggregate ret false = Ok rep
      ∧ rSuccess rep = brief <$> first_occurrences ks
      ∧ rFailure rep = brief <$> first_occurrences kf
      ∧ rControlled rep = drop_empty (brief_controlled <$> first_occurrences kc)
      ∧ NoDup (rSuccess rep) ∧ NoDup (rFailure rep)
      ∧ NoDup (default [] (rControlled rep)).
Proof.
  intros Hs Hf Hc. split_and!; [done | by destruct (Controlled ret) |].
  unfold aggregate.
  rewrite !collapse_spec, collapse_controlled_spec, Hs, Hf, Hc. simpl.
  eexists. split; [done|]. simpl. split_and!; try done.
  - apply NoDup_fmap_2; [apply _ | apply first_occurrences_NoDup].
  - apply NoDup_fmap_2; [apply _ | apply first_occurrences_NoDup].
  - apply drop_empty_NoDup, NoDup_fmap_2; [apply _ | apply first_occurrences_NoDup].
Qed.

End Properties.

(** * Further properties *)

Section Further.

Context {order : DictOrder}.

(** ** The merger *)

Lemma dict_get_set_eq (k : string) (v : yaml) (d : dict) :
  dict_get k (dict_set k v d) = Some v.
Proof.
  induction d as [|[k' v'] d IH]; simpl.
  - by rewrite decide_True.
  - destruct (decide (k' = k)) as [->|Hne]; simpl.
    + by rewrite decide_True.
    + by rewrite decide_False.
Qed.

Lemma dict_get_set_ne (k k' : string) (v : yaml) (d : dict) :
  k ≠ k' → dict_get k' (dict_set k v d) = dict_get k' d.
Proof.
  intros Hne. induction d as [|[k0 v0] d IH]; simpl.
  - by rewrite decide_False.
  - destruct (decide (k0 = k)) as [->|Hne0]; simpl.
    + by rewrite !decide_False.
    + destruct (decide (k0 = k')); [done | apply IH].
Qed.

Lemma dict_set_keys (k : string) (v : yaml) (d : dict) :
  is_Some (dict_get k d) → (dict_set k v d).*1 = d.*1.
Proof.
  induction d as [|[k' v'] d IH]; [by intros [? ?]|].
  cbn [dict_get dict_set]. destruct (decide (k' = k)) as [->|Hne]; [done|].
  intros Hk. rewrite !fmap_cons. f_equal. by apply IH.
Qed.

Lemma dict_get_new (k : string) (v : yaml) (d : dict) :
  dict_get k d = None → dict_get k (dict_new k v d) = Some v.
Proof.
  rewrite !dict_get_assoc. intros Hk%assoc_get_None.
  apply (assoc_get_new d); [done | apply dict_new_perm].
Qed.

Lemma dict_get_new_ne (k k' : string) (v : yaml) (d : dict) :
  NoDup d.*1 → dict_get k d = None → k' ≠ k →
  dict_get k' (dict_new k v d) = dict_get k' d.
Proof.
  rewrite !dict_get_assoc. intros Hnd Hk%assoc_get_None Hne.
  apply (assoc_get_new_ne d _ k k' v); [done | done | apply dict_new_perm | done].
Qed.

Lemma dict_new_NoDup (k : string) (v : yaml) (d : dict) :
  NoDup d.*1 → dict_get k d = None → NoDup (dict_new k v d).*1.
Proof.
  rewrite dict_get_assoc. intros Hnd Hk%assoc_get_None.
  apply (new_keys_NoDup d _ k v); [done | done | apply dict_new_perm].
Qed.

Lemma merged_append_ok (topkey key : string) (val : yaml) (ret p : dict) l :
  dict_get "pkg" ret = Some (YMap p) →
  dict_get topkey p = Some (YSeq l) →
  merged_append topkey key val ret
  = Ok (dict_set "pkg"
          (YMap (dict_set topkey (YSeq (l ++ [YMap [(key, val)]])) p)) ret).
Proof.
  intros Hp Hl. unfold merged_append, dict_getitem. rewrite Hp. simpl.
  unfold dict_getitem. by rewrite Hl.
Qed.

(** The inner loop of [_merge_yaml]: every audit of the document is
    appended to the list of its category, and nothing else moves. *)
Lemma merged_append_loop (topkey : string) (audits : dict) :
  ∀ (ret p : dict) (l : list yaml),
  dict_get "pkg" ret = Some (YMap p) →
  dict_get topkey p = Some (YSeq l) →
  ∃ ret' p',
    foldM (λ ret '(key, val), merged_append topkey key val ret) ret audits = Ok ret'
    ∧ dict_get "pkg" ret' = Some (YMap p')
    ∧ dict_get topkey p' = Some (YSeq (l ++ single_entries audits))
    ∧ (∀ k, k ≠ topkey → dict_get k p' = dict_get k p)
    ∧ p'.*1 = p.*1.
Proof.
  induction audits as [|[key val] audits IH]; intros ret p l Hp Hl; simpl.
  - exists ret, p. by rewrite app_nil_r.
  - rewrite (merged_append_ok _ _ _ _ _ _ Hp Hl). simpl.
    edestruct (IH (dict_set "pkg"
                     (YMap (dict_set topkey (YSeq (l ++ [YMap [(key, val)]])) p)) ret))
      as (ret' & p' & Hfold & Hp' & Hl' & Hother & Hkeys).
    { apply dict_get_set_eq. }
    { apply dict_get_set_eq. }
    exists ret', p'. split_and!; [done | done | | |].
    + by rewrite Hl', <- app_assoc.
    + intros k Hk. rewrite (Hother k Hk). by apply dict_get_set_ne.
    + rewrite Hkeys. apply dict_set_keys. by rewrite Hl.
Qed.

Lemma _merge_yaml_unfold (ret : dict) (data : yaml) :
  _merge_yaml ret data =
    (let ret := if dict_has "pkg" ret then ret else dict_new "pkg" (YMap []) ret in
     ret ← merge_category "blacklist" data ret;
     ret ← merge_category "whitelist" data ret;
     Ok ret).
Proof. reflexivity. Qed.

(** One category of one document. *)
Lemma merge_category_step (topkey : string) (data : yaml) (ret p : dict) :
  well_shaped data = true → topkey = "blacklist" ∨ topkey = "whitelist" →
  dict_get "pkg" ret = Some (YMap p) → NoDup p.*1 →
  ∀ acc, dict_get topkey p = YSeq <$> acc →
  ∃ ret' p',
    merge_category topkey data ret = Ok ret'
    ∧ dict_get "pkg" ret' = Some (YMap p')
    ∧ dict_get topkey p' = YSeq <$> extend acc (category topkey data)
    ∧ (∀ k, k ≠ topkey → dict_get k p' = dict_get k p)
    ∧ NoDup p'.*1.
Proof.
  intros Hws Htop Hp Hnd acc Hacc.
  destruct data as [s|l|d]; [done | done |]. simpl in Hws.
  unfold merge_category, py_get, category. simpl.
  destruct (dict_get "pkg" d) as [[s|l|pd]|] eqn:Hpkg; try done; simpl.
  2: { exists ret, p. by split_and!. }
  assert (Hcat : mapping_or_absent (dict_get topkey pd) = true).
  { apply andb_true_iff in Hws as [Hb Hw]. by destruct Htop as [-> | ->]. }
  unfold dict_has. destruct (dict_get topkey pd) as [[s|l|audits]|] eqn:Ht;
    try done; simpl.
  2: { exists ret, p. by split_and!. }
  unfold dict_getitem. rewrite Hp, Ht. simpl. unfold dict_has. rewrite Hacc.
  destruct acc as [l|]; simpl.
  - destruct (merged_append_loop topkey audits ret p l Hp Hacc)
      as (ret' & p' & Hfold & Hp' & Hl' & Hother & Hkeys).
    exists ret', p'. split_and!; [done | done | done | done |].
    by rewrite Hkeys.
  - simpl in Hacc.
    edestruct (merged_append_loop topkey audits
                 (dict_set "pkg" (YMap (dict_new topkey (YSeq []) p)) ret))
      as (ret' & p' & Hfold & Hp' & Hl' & Hother & Hkeys).
    { apply dict_get_set_eq. }
    { by apply dict_get_new. }
    exists ret', p'. split_and!; [done | done | done | |].
    + intros k Hk. rewrite (Hother k Hk). by apply dict_get_new_ne.
    + rewrite Hkeys. by apply dict_new_NoDup.
Qed.

Lemma merge_yaml_step (ret : dict) (data : yaml) (bl wl : option (list yaml)) :
  well_shaped data = true →
  (∀ v, dict_get "pkg" ret = Some v → ∃ p, v = YMap p ∧ NoDup p.*1) →
  merged_category "blacklist" ret = YSeq <$> bl →
  merged_category "whitelist" ret = YSeq <$> wl →
  ∃ ret', _merge_yaml ret data = Ok ret'
    ∧ (∀ v, dict_get "pkg" ret' = Some v → ∃ p, v = YMap p ∧ NoDup p.*1)
    ∧ merged_category "blacklist" ret'
      = YSeq <$> extend bl (category "blacklist" data)
    ∧ merged_category "whitelist" ret'
      = YSeq <$> extend wl (category "whitelist" data).
Proof.
  intros Hws Hpkg Hb Hw. rewrite _merge_yaml_unfold.
  set (ret0 := if dict_has "pkg" ret then ret else dict_new "pkg" (YMap []) ret).
  assert (∃ p0, dict_get "pkg" ret0 = Some (YMap p0) ∧ NoDup p0.*1
                ∧ dict_get "blacklist" p0 = YSeq <$> bl
                ∧ dict_get "whitelist" p0 = YSeq <$> wl)
    as (p0 & Hp0 & Hnd0 & Hb0 & Hw0).
  { unfold ret0, dict_has, merged_category in *.
    destruct (dict_get "pkg" ret) as [v|] eqn:E.
    - destruct (Hpkg v eq_refl) as (p & -> & Hnd). by exists p.
    - exists []. rewrite (dict_get_new _ _ _ E). split_and!; [done | constructor | done | done]. }
  cbv zeta.
  destruct (merge_category_step "blacklist" data ret0 p0 Hws (or_introl eq_refl)
              Hp0 Hnd0 bl Hb0) as (ret1 & p1 & -> & Hp1 & Hb1 & Ho1 & Hnd1).
  simpl.
  assert (Hw1 : dict_get "whitelist" p1 = YSeq <$> wl) by (by rewrite Ho1).
  destruct (merge_category_step "whitelist" data ret1 p1 Hws (or_intror eq_refl)
              Hp1 Hnd1 wl Hw1) as (ret2 & p2 & -> & Hp2 & Hw2 & Ho2 & Hnd2).
  simpl. exists ret2. unfold merged_category. rewrite Hp2.
  split_and!; [done | | by rewrite Ho2 | done].
  intros v [= <-]. by exists p2.
Qed.

Lemma merge_yaml_loop (docs : list yaml) :
  ∀ (ret : dict) (bl wl : option (list yaml)),
  Forall (λ data, well_shaped data = true) docs →
  (∀ v, dict_get "pkg" ret = Some v → ∃ p, v = YMap p ∧ NoDup p.*1) →
  merged_category "blacklist" ret = YSeq <$> bl →
  merged_category "whitelist" ret = YSeq <$> wl →
  ∃ ret', foldM _merge_yaml ret docs = Ok ret'
    ∧ merged_category "blacklist" ret'
      = YSeq <$> foldl extend bl (category "blacklist" <$> docs)
    ∧ merged_category "whitelist" ret'
      = YSeq <$> foldl extend wl (category "whitelist" <$> docs).
Proof.
  induction docs as [|data docs IH]; intros ret bl wl Hws Hpkg Hb Hw; simpl.
  - by exists ret.
  - apply Forall_cons in Hws as [Hd Hws].
    destruct (merge_yaml_step ret data bl wl Hd Hpkg Hb Hw)
      as (ret1 & -> & Hpkg1 & Hb1 & Hw1).
    simpl. by apply IH.
Qed.

Lemma foldl_extend_Some (topkey : string) (docs : list yaml) (l : list yaml) :
  foldl extend (Some l) (category topkey <$> docs)
  = Some (l ++ concat (single_entries <$> omap (category topkey) docs)).
Proof.
  revert l. induction docs as [|data docs IH]; intros l; simpl.
  - by rewrite app_nil_r.
  - destruct (category topkey data) as [audits|]; simpl; [|apply IH].
    by rewrite IH, <- app_assoc.
Qed.

Lemma foldl_extend_None (topkey : string) (docs : list yaml) :
  YSeq <$> foldl extend None (category topkey <$> docs) = merged_list topkey docs.
Proof.
  unfold merged_list. induction docs as [|data docs IH]; simpl; [done|].
  destruct (category topkey data) as [audits|]; simpl; [|apply IH].
  by rewrite foldl_extend_Some.
Qed.

(** X1: merging policy documents of the data model never raises, and
    for each category the merged policy holds one single-entry mapping
    per audit of every document, documents in their order and the
    audits of a document in the order its mapping yields them: audits
    with the same id are all kept, and a category no document has stays
    absent. *)
Theorem merge_documents (docs : list yaml) :
  Forall (λ data, well_shaped data = true) docs →
  ∃ ret, foldM _merge_yaml [] docs = Ok ret
    ∧ merged_category "blacklist" ret = merged_list "blacklist" docs
    ∧ merged_category "whitelist" ret = merged_list "whitelist" docs.
Proof.
  intros Hws.
  destruct (merge_yaml_loop docs [] None None Hws) as (ret & Hret & Hb & Hw);
    [done | done | done |].
  exists ret. by rewrite Hb, Hw, !foldl_extend_None.
Qed.

(** X2: a policy document that is not a mapping makes [_merge_yaml]
    raise [AttributeError], whatever was merged before it, and so makes
    the whole [audit] raise: no report comes back. *)
Theorem audit_document_not_mapping
    (osfinger : option string) (pkg_version : yaml → string)
    (fnmatch : string → string → bool)
    (data_list : list yaml) (data : yaml) (tags : string) (verbose : bool) :
  data ∈ data_list → (∀ d, data ≠ YMap d) →
  (∀ ret, _merge_yaml ret data = Raise AttributeError)
  ∧ ¬ returns (audit osfinger pkg_version fnmatch data_list tags verbose).
Proof.
  intros Hin Hd.
  assert (Hraise : ∀ ret, _merge_yaml ret data = Raise AttributeError).
  { intros ret. rewrite _merge_yaml_unfold. unfold merge_category, py_get.
    destruct data as [s|l|d]; [done | done | by destruct (Hd d)]. }
  split; [done|]. unfold audit.
  assert (Hm : ¬ returns (foldM _merge_yaml [] data_list)).
  { apply (foldM_not_returns _ _ _ Hin). intros ret. rewrite Hraise.
    by intros [? ?]. }
  destruct (foldM _merge_yaml [] data_list) as [ret|e]; simpl.
  - destruct Hm. by eexists.
  - by intros [? ?].
Qed.

(** X3: with no policy document at all, [audit] returns the report with
    two empty buckets and no [Controlled] key, for every filter and both
    verbosities, and never calls the package query. *)
Theorem audit_no_document
    (osfinger : option string) (pkg_version : yaml → string)
    (fnmatch : string → string → bool) (tags : string) (verbose : bool) :
  audit osfinger pkg_version fnmatch [] tags verbose = Ok (Report [] [] None)
  ∧ (__data__ ← foldM _merge_yaml [] [];
     __tags__ ← _get_tags osfinger (YMap __data__);
     evaluate pkg_version fnmatch __tags__ tags) = Ok no_verdicts.
Proof. by destruct verbose. Qed.

(** ** The resolver *)

Lemma foldM_app {A S} (f : S → A → result S) (s : S) (l1 l2 : list A) :
  foldM f s (l1 ++ l2) = (s' ← foldM f s l1; foldM f s' l2).
Proof.
  revert s. induction l1 as [|x l1 IH]; intros s; simpl; [done|].
  destruct (f s x) as [s'|e]; simpl; [apply IH | done].
Qed.

Lemma foldM_invariant {A S} (f : S → A → result S) (P : S → Prop) (l : list A) :
  (∀ s x s', x ∈ l → f s x = Ok s' → P s → P s') →
  ∀ s s', foldM f s l = Ok s' → P s → P s'.
Proof.
  induction l as [|x l IH]; intros Hf s s'; simpl.
  - by intros [= <-].
  - destruct (f s x) as [s1|e] eqn:E; simpl; [|done].
    intros Hfold Hs. apply (IH (λ s0 y s0' Hy, Hf s0 y s0' (list_elem_of_further _ _ _ Hy))
                              s1 s' Hfold).
    by apply (Hf s x s1 (list_elem_of_here _ _) E).
Qed.

Lemma tt_has_elem_of (key : string) (tt : tagtable) :
  tt_has key tt = true ↔ key ∈ tt.*1.
Proof.
  unfold tt_has. induction tt as [|[t rs] tt IH]; simpl.
  - split; [done | by intros ?%elem_of_nil].
  - rewrite elem_of_cons. destruct (decide (t = key)) as [->|Hne].
    + split; [by left | done].
    + rewrite IH. split; [by right | by intros [?|?]].
Qed.

Lemma tt_append_keys (key : string) (r : rule) (t0 t' : tagtable) :
  tt_append key r t0 = Ok t' → t'.*1 = t0.*1.
Proof.
  revert t'. induction t0 as [|[t rs] t0 IH]; intros t'; [done|].
  cbn [tt_append]. destruct (decide (t = key)) as [->|Hne].
  - by intros [= <-].
  - destruct (tt_append key r t0) as [t1|e]; simpl; [|done].
    intros [= <-]. rewrite !fmap_cons. f_equal. by apply IH.
Qed.

Lemma tt_append_get_ne (key k : string) (r : rule) (t0 t' : tagtable) :
  k ≠ key → tt_append key r t0 = Ok t' → tt_get k t' = tt_get k t0.
Proof.
  intros Hk. revert t'. induction t0 as [|[t rs] t0 IH]; intros t'; [done|].
  cbn [tt_append]. destruct (decide (t = key)) as [->|Hne].
  - intros [= <-]. simpl. by rewrite !decide_False.
  - destruct (tt_append key r t0) as [t1|e]; simpl; [|done].
    intros [= <-]. simpl. destruct (decide (t = k)); [done | by apply IH].
Qed.

Lemma tt_append_elem_of (key : string) (r : rule) (t0 t' : tagtable) t rs :
  NoDup t0.*1 → tt_append key r t0 = Ok t' → (t, rs) ∈ t' →
  (t ≠ key ∧ (t, rs) ∈ t0)
  ∨ (t = key ∧ ∃ rs0, rs = rs0 ++ [r] ∧ (key, rs0) ∈ t0).
Proof.
  revert t'. induction t0 as [|[t1 rs1] t0 IH]; intros t'; [done|].
  rewrite fmap_cons. intros [Hhd Hnd]%NoDup_cons. cbn [tt_append].
  destruct (decide (t1 = key)) as [->|Hne].
  - intros [= <-] [[= -> ->]|Hin]%elem_of_cons.
    + right. split; [done|]. exists rs1. split; [done | left].
    + left. split; [|by right].
      intros ->. apply Hhd. by apply (list_elem_of_fmap_2 fst t0 (key, rs)).
  - destruct (tt_append key r t0) as [t2|e]; simpl; [|done].
    intros [= <-] [[= -> ->]|Hin]%elem_of_cons.
    + left. split; [done | left].
    + destruct (IH t2 Hnd eq_refl Hin) as [[? ?]|(-> & rs0 & -> & ?)].
      * left. split; [done | by right].
      * right. split; [done|]. exists rs0. split; [done | by right].
Qed.

(** The table after [if tag not in ret: ret[tag] = []]. *)
Lemma ensured_keys (key : string) (ret : tagtable) :
  (if tt_has key ret then ret else dict_new key [] ret).*1
  ≡ₚ (if tt_has key ret then ret.*1 else ret.*1 ++ [key]).
Proof.
  destruct (tt_has key ret); [done|].
  by rewrite dict_new_perm, fmap_app.
Qed.

Lemma ensured_NoDup (key : string) (ret : tagtable) :
  NoDup ret.*1 → NoDup (if tt_has key ret then ret else dict_new key [] ret).*1.
Proof.
  intros Hnd. rewrite ensured_keys. destruct (tt_has key ret) eqn:E; [done|].
  apply NoDup_app. split_and!; [done | | apply NoDup_singleton].
  intros x Hx ->%list_elem_of_singleton.
  apply tt_has_elem_of in Hx. congruence.
Qed.

Lemma ensured_elem_of (key : string) (ret : tagtable) t rs :
  (t, rs) ∈ (if tt_has key ret then ret else dict_new key [] ret) →
  (t, rs) ∈ ret ∨ (t = key ∧ rs = []).
Proof.
  destruct (tt_has key ret); [by left|].
  rewrite dict_new_perm, elem_of_app, list_elem_of_singleton.
  intros [?|[= -> ->]]; [by left | by right].
Qed.

Lemma ensured_get_ne (key k : string) (ret : tagtable) :
  NoDup ret.*1 → k ≠ key →
  tt_get k (if tt_has key ret then ret else dict_new key [] ret) = tt_get k ret.
Proof.
  intros Hnd Hk. destruct (tt_has key ret) eqn:E; [done|].
  rewrite !tt_get_assoc.
  apply (assoc_get_new_ne ret _ key k []); [done | | apply dict_new_perm | done].
  intros Hin%tt_has_elem_of. congruence.
Qed.

Lemma table_step_ok (key : string) (r : rule) (ret ret' : tagtable) :
  tt_append key r (if tt_has key ret then ret else dict_new key [] ret) = Ok ret' →
  table_ok ret → resolved_rule r → table_ok ret'.
Proof.
  intros Happ [Hnd Hall] Hr. split.
  - rewrite (tt_append_keys _ _ _ _ Happ). by apply ensured_NoDup.
  - intros t rs Hin.
    destruct (tt_append_elem_of _ _ _ _ _ _ (ensured_NoDup key ret Hnd) Happ Hin)
      as [[Hne Hin0]|(-> & rs0 & -> & Hin0)].
    + apply ensured_elem_of in Hin0 as [Hin0|[-> _]]; [|done].
      exact (Hall _ _ Hin0).
    + split; [by destruct rs0|].
      apply Forall_app. split; [|by apply Forall_cons].
      apply ensured_elem_of in Hin0 as [Hin0|[_ ->]]; [|by apply Forall_nil].
      exact (proj2 (Hall _ _ Hin0)).
Qed.

Lemma overlay_as_built_resolved toplist audit_data name tag tag_data :
  resolved_rule (overlay_as_built toplist audit_data name tag tag_data).
Proof.
  assert (Hk : ∀ k, k ≠ "data" → is_Some (base_fields name tag toplist !! k) →
    is_Some (overlay_as_built toplist audit_data name tag tag_data !! k)).
  { intros k Hne Hb. rewrite overlay_as_built_lookup by done.
    destruct (dict_get k audit_data); [by eexists|].
    destruct (tag_data !! k); [by eexists | done]. }
  unfold resolved_rule.
  split_and!; try (apply Hk; [done | by eexists]).
  apply lookup_delete_eq.
Qed.

(** What [resolve_item] returns, whenever it returns. *)
Lemma resolve_item_result toplist audit_data ret name tagspec ret' :
  resolve_item toplist audit_data ret name tagspec = Ok ret' →
  ∃ tag tag_data key,
    split_tagspec tagspec = Ok (tag, tag_data) ∧ hashable tag = Ok key
    ∧ tt_append key (overlay_as_built toplist audit_data name tag tag_data)
        (if tt_has key ret then ret else dict_new key [] ret) = Ok ret'.
Proof.
  unfold resolve_item.
  destruct (split_tagspec tagspec) as [[tag tag_data]|e]; simpl; [|done].
  destruct (hashable tag) as [key|e] eqn:Hh; simpl; [|done].
  unfold rule_pop.
  destruct ((to_rule audit_data ∪ (tag_data ∪ base_fields name tag toplist))
              !! "data"); simpl; [|done].
  intros Happ. by exists tag, tag_data, key.
Qed.

(** X4: an audit spec without the key [data] adds no rule and raises
    nothing, whereas one whose [data] is not a mapping makes the
    resolution raise [AttributeError]. *)
Theorem resolve_audit_data_edge
    (osfinger : option string) (toplist : string) (ret : tagtable)
    (audit_data : dict) :
  (dict_get "data" audit_data = None →
     resolve_audit osfinger toplist ret (YMap audit_data) = Ok ret)
  ∧ (∀ v, dict_get "data" audit_data = Some v → (∀ d, v ≠ YMap d) →
       resolve_audit osfinger toplist ret (YMap audit_data) = Raise AttributeError).
Proof.
  split.
  - intros Hd. unfold resolve_audit, py_get. simpl. rewrite Hd. simpl.
    unfold select_bucket. simpl. by destruct osfinger.
  - intros v Hd Hv. unfold resolve_audit, py_get. simpl. rewrite Hd. simpl.
    destruct v as [s|l|d]; [done | done | by destruct (Hv d)].
Qed.

(** X5: resolving one item touches only the list of its own tag: the
    tags of the table are the ones it had, and the item's tag when that
    is new; the rules already listed under the tag stay in front of the
    new one; and the lists of all other tags are as they were. *)
Theorem resolve_item_appends
    (toplist : string) (audit_data : dict) (ret : tagtable) (name : string)
    (tagspec tag : yaml) (tag_data : rule) (key : string) :
  split_tagspec tagspec = Ok (tag, tag_data) →
  hashable tag = Ok key →
  is_Some (dict_get "data" audit_data) →
  NoDup ret.*1 →
  ∃ ret', resolve_item toplist audit_data ret name tagspec = Ok ret'
    ∧ ret'.*1 ≡ₚ (if tt_has key ret then ret.*1 else ret.*1 ++ [key])
    ∧ (∀ k, k ≠ key → tt_get k ret' = tt_get k ret)
    ∧ (∃ r, tt_get key ret' = Some (default [] (tt_get key ret) ++ [r])).
Proof.
  intros Hs Hh Hd Hnd.
  destruct (resolve_item_ok toplist audit_data ret name _ _ _ _ Hs Hh Hd)
    as (ret' & Hret & Hget).
  exists ret'. split; [done|].
  destruct (resolve_item_result _ _ _ _ _ _ Hret)
    as (tag' & tag_data' & key' & Hs' & Hh' & Happ).
  rewrite Hs in Hs'. injection Hs' as <- <-.
  rewrite Hh in Hh'. injection Hh' as <-.
  split_and!.
  - rewrite (tt_append_keys _ _ _ _ Happ). apply ensured_keys.
  - intros k Hk. rewrite (tt_append_get_ne _ _ _ _ _ Hk Happ).
    by apply ensured_get_ne.
  - by eexists.
Qed.

Lemma resolve_item_table_ok toplist audit_data ret name tagspec ret' :
  resolve_item toplist audit_data ret name tagspec = Ok ret' →
  table_ok ret → table_ok ret'.
Proof.
  intros (tag & tag_data & key & _ & _ & Happ)%resolve_item_result Hok.
  eapply table_step_ok; [done | done | apply overlay_as_built_resolved].
Qed.

Lemma resolve_audit_table_ok osfinger toplist ret audit_data ret' :
  resolve_audit osfinger toplist ret audit_data = Ok ret' →
  table_ok ret → table_ok ret'.
Proof.
  unfold resolve_audit.
  destruct (py_get audit_data "data" (YMap [])) as [td|e]; simpl; [|done].
  destruct (as_dict td) as [tags_dict|e]; simpl; [|done].
  destruct (as_dict audit_data) as [a|e]; simpl; [|done].
  unfold resolve_items. apply foldM_invariant. intros s item s' _.
  destruct (py_iteritems item) as [pairs|e]; simpl; [|done].
  apply foldM_invariant. intros s0 [name tag] s0' _.
  apply resolve_item_table_ok.
Qed.

Lemma _get_tags_table_ok osfinger data tt :
  _get_tags osfinger data = Ok tt → table_ok tt.
Proof.
  unfold _get_tags.
  destruct (py_get data "pkg" (YMap [])) as [pkg|e]; simpl; [|done].
  destruct (py_iteritems pkg) as [tops|e]; simpl; [|done].
  intros H. eapply (foldM_invariant _ table_ok) in H; [done | |].
  - intros s [toplist toplevel] s' _. apply foldM_invariant.
    intros s0 audit_dict s0' _.
    destruct (py_iteritems audit_dict) as [audits|e]; simpl; [|done].
    apply foldM_invariant. intros s1 [audit_id audit_data] s1' _.
    apply resolve_audit_table_ok.
  - split; [constructor | by intros ? ? ?%elem_of_nil].
Qed.

(** X6: in a tag table returned by [_get_tags] every tag is listed
    once and has at least one rule, and every rule has the fields
    [name], [tag], [module] and [type] and no field [data]. *)
Theorem resolved_table_invariant
    (osfinger : option string) (data : yaml) (tt : tagtable) :
  _get_tags osfinger data = Ok tt →
  NoDup tt.*1
  ∧ ∀ tag rules r, (tag, rules) ∈ tt →
      rules ≠ []
      ∧ (r ∈ rules →
           is_Some (r !! "name") ∧ is_Some (r !! "tag") ∧ is_Some (r !! "module")
           ∧ is_Some (r !! "type") ∧ r !! "data" = None).
Proof.
  intros H. apply _get_tags_table_ok in H as [Hnd Hall]. split; [done|].
  intros tag rules r Hin. destruct (Hall _ _ Hin) as [Hne HF].
  split; [done|]. intros Hr. by apply (proj1 (Forall_forall _ _) HF).
Qed.

Lemma audit_rule_resolved pkg_version (st : verdicts) (r : rule) :
  resolved_rule r →
  returns (audit_rule pkg_version st r)
  ∨ audit_rule pkg_version st r = Raise AttributeError.
Proof.
  intros ([name Hn] & _ & _ & [audittype Ht] & _).
  unfold audit_rule, rule_has, rule_getitem. rewrite Hn, Ht. simpl.
  destruct (r !! "control"); [left; by eexists|].
  destruct (yaml_is "blacklist" audittype).
  { destruct (truthy _); left; by eexists. }
  destruct (yaml_is "whitelist" audittype); [|left; by eexists].
  destruct (r !! "version") as [[s|l|d]|]; simpl; try by right.
  - destruct (split_version s) as [modif version].
    destruct (String.eqb modif "<").
    { unfold LooseVersion_le.
      destruct (LooseVersion (pkg_version name)), (LooseVersion version);
        simpl; try by right.
      destruct (version_le _ _); left; by eexists. }
    destruct (String.eqb modif ">").
    { unfold LooseVersion_ge.
      destruct (LooseVersion (pkg_version name)), (LooseVersion version);
        simpl; try by right.
      destruct (version_ge _ _); left; by eexists. }
    destruct (negb (truthy modif)); [destruct (String.eqb _ _)|]; left; by eexists.
  - destruct (truthy _); left; by eexists.
Qed.

Lemma foldM_returns_or {A S} (f : S → A → result S) (e : exn) (l : list A) :
  (∀ s x, x ∈ l → returns (f s x) ∨ f s x = Raise e) →
  ∀ s, returns (foldM f s l) ∨ foldM f s l = Raise e.
Proof.
  induction l as [|x l IH]; intros Hf s; simpl; [left; by eexists|].
  destruct (Hf s x (list_elem_of_here _ _)) as [[s' ->]| ->]; simpl; [|by right].
  apply IH. intros s0 y Hy. apply Hf. by right.
Qed.

(** X7: on a tag table returned by [_get_tags] the evaluation never
    raises [KeyError] or [TypeError]: it returns the verdicts, or raises
    [AttributeError] (on a version constraint that is not a string, or
    on an ordered constraint for a package that is not installed). *)
Theorem evaluate_resolved_table
    (osfinger : option string) (pkg_version : yaml → string)
    (fnmatch : string → string → bool) (data : yaml) (tt : tagtable)
    (tags : string) :
  _get_tags osfinger data = Ok tt →
  returns (evaluate pkg_version fnmatch tt tags)
  ∨ evaluate pkg_version fnmatch tt tags = Raise AttributeError.
Proof.
  intros H. apply _get_tags_table_ok in H as [_ Hall]. unfold evaluate.
  apply foldM_returns_or. intros st [tag rules] Hin.
  destruct (fnmatch tag tags); [|left; by eexists].
  apply foldM_returns_or. intros st' r Hr. apply audit_rule_resolved.
  destruct (Hall _ _ Hin) as [_ HF]. by apply (proj1 (Forall_forall _ _) HF).
Qed.

(** X8: the items of a bucket are flattened: resolving a list of
    mappings is resolving their name and TagSpec pairs one after the
    other, however the pairs are grouped into items; so a bucket given as
    a mapping resolves like the one-item list holding that mapping. *)
Theorem resolve_items_flatten
    (toplist : string) (audit_data : dict) (ret : tagtable)
    (items : list dict) (d : dict) :
  resolve_items toplist audit_data ret (YSeq (YMap <$> items))
  = foldM (λ ret '(name, tag), resolve_item toplist audit_data ret name tag)
      ret (concat items)
  ∧ resolve_items toplist audit_data ret (normalize_bucket (YMap d))
    = resolve_items toplist audit_data ret (YSeq [YMap d]).
Proof.
  assert (Hflat : ∀ items ret,
    resolve_items toplist audit_data ret (YSeq (YMap <$> items))
    = foldM (λ ret '(name, tag), resolve_item toplist audit_data ret name tag)
        ret (concat items)).
  { clear. intros items. unfold resolve_items. simpl.
    induction items as [|pairs items IH]; intros ret; simpl; [done|].
    rewrite foldM_app.
    destruct (foldM _ ret pairs) as [ret'|e]; simpl; [apply IH | done]. }
  split; [apply Hflat|].
  change (YSeq [YMap d]) with (YSeq (YMap <$> [d])). rewrite Hflat.
  simpl. rewrite app_nil_r.
  replace (single_entries d) with (YMap <$> ((λ p, [p]) <$> d)).
  - rewrite Hflat. f_equal. clear. induction d as [|p d IH]; [done|].
    simpl. by f_equal.
  - unfold single_entries. clear. induction d as [|[name tag] d IH]; [done|].
    simpl. by f_equal.
Qed.

(** X9: a tag that is not a string cannot key the tag table: a
    TagSpec that is a sequence, or a mapping whose [tag] is a sequence or
    a mapping, makes the resolution of the item raise [TypeError]. *)
Theorem resolve_item_unhashable_tag
    (toplist : string) (audit_data : dict) (ret : tagtable) (name : string)
    (tagspec tag : yaml) (tag_data : rule) :
  split_tagspec tagspec = Ok (tag, tag_data) →
  (∀ s, tag ≠ YStr s) →
  resolve_item toplist audit_data ret name tagspec = Raise TypeError.
Proof.
  intros Hs Ht. unfold resolve_item. rewrite Hs. simpl.
  destruct tag as [s|l|d]; [by destruct (Ht s) | done | done].
Qed.

(** ** The evaluation *)

Lemma evaluate_from (pkg_version : yaml → string)
    (fnmatch : string → string → bool) (tt : tagtable) (tags : string) :
  ∀ st : verdicts,
  foldM (λ (st : verdicts) '((tag, rules) : string * list rule),
    if fnmatch tag tags then foldM (audit_rule pkg_version) st rules else Ok st)
    st tt
  = foldM (audit_rule pkg_version) st
      (concat (snd <$> filter (λ p, fnmatch p.1 tags = true) tt)).
Proof.
  induction tt as [|[tag rules] tt IH]; intros st; [done|].
  rewrite filter_cons. simpl. destruct (fnmatch tag tags) eqn:Hm.
  - rewrite decide_True by done. simpl. rewrite foldM_app.
    destruct (foldM (audit_rule pkg_version) st rules); simpl; [apply IH | done].
  - rewrite decide_False by done. simpl. apply IH.
Qed.

(** X10: the evaluation is one pass, in table order, over the rules of
    the tags that match the filter; the rules of the other tags are not
    looked at, so when no tag matches the verdicts are empty and no
    package was queried. *)
Theorem evaluate_matching_tags
    (pkg_version : yaml → string) (fnmatch : string → string → bool)
    (tt : tagtable) (tags : string) :
  evaluate pkg_version fnmatch tt tags
  = foldM (audit_rule pkg_version) no_verdicts
      (concat (snd <$> filter (λ p, fnmatch p.1 tags = true) tt))
  ∧ ((∀ tag, tag ∈ tt.*1 → fnmatch tag tags = false) →
       evaluate pkg_version fnmatch tt tags = Ok no_verdicts).
Proof.
  split; [apply evaluate_from|].
  intros Hno. unfold evaluate. rewrite evaluate_from.
  replace (filter (λ p, fnmatch p.1 tags = true) tt) with ([] : tagtable); [done|].
  symmetry. induction tt as [|[tag rules] tt IH]; [done|].
  rewrite filter_cons_False.
  - apply IH. intros t Ht. apply Hno. simpl. by right.
  - simpl. rewrite (Hno tag); [done | simpl; left].
Qed.

(** X11: a rule without [control] whose type is neither [blacklist]
    nor [whitelist] is passed over in silence: no bucket gets it, no
    package is queried, nothing is raised. *)
Theorem audit_rule_unknown_type
    (pkg_version : yaml → string) (st : verdicts) (r : rule) (name t : yaml) :
  r !! "control" = None → r !! "name" = Some name → r !! "type" = Some t →
  t ≠ YStr "blacklist" → t ≠ YStr "whitelist" →
  audit_rule pkg_version st r = Ok st.
Proof.
  intros Hc Hn Ht Hb Hw. unfold audit_rule, rule_has, rule_getitem.
  rewrite Hc, Hn, Ht. simpl.
  destruct t as [s|l|d]; simpl; [|done|done].
  destruct (String.eqb_spec s "blacklist") as [->|_]; [done|].
  destruct (String.eqb_spec s "whitelist") as [->|_]; done.
Qed.

Lemma audit_rule_cases pkg_version (st st' : verdicts) (r : rule) :
  audit_rule pkg_version st r = Ok st' →
  st' = st
  ∨ st' = to_Controlled r st
  ∨ (∃ name, r !! "name" = Some name
       ∧ (st' = to_Success r (called name st) ∨ st' = to_Failure r (called name st)))
  ∨ (∃ e, st' = to_Failure (<["error" := YStr e]> r) st).
Proof.
  unfold audit_rule, rule_has, rule_getitem.
  destruct (r !! "control") as [c|]; simpl.
  { intros [= <-]. auto. }
  destruct (r !! "name") as [name|]; simpl; [|done].
  destruct (r !! "type") as [audittype|]; simpl; [|done].
  intros H.
  repeat match type of H with
         | context [LooseVersion_le ?a ?b] => destruct (LooseVersion_le a b)
         | context [LooseVersion_ge ?a ?b] => destruct (LooseVersion_ge a b)
         | context [if ?b then _ else _] => destruct b
         | context [match ?o with Some _ => _ | None => _ end] => destruct o as [[]|]
         | context [let '(_, _) := ?p in _] => destruct p
         | _ => progress simpl in H
         end; simplify_eq/=; simplify_eq; eauto 10.
Qed.

(** X12: a rule that is evaluated ends in at most one bucket, as
    itself or, in [Failure] only, with an [error] field added; the
    package query is called at most once, on the rule's [name], and only
    for a rule that ends in [Success] or [Failure]. *)
Theorem audit_rule_one_verdict
    (pkg_version : yaml → string) (st st' : verdicts) (r : rule) :
  audit_rule pkg_version st r = Ok st' →
  (st' = st
   ∨ (classified VControlled r st st'
      ∧ pkg_version_calls st' = pkg_version_calls st)
   ∨ (∃ name, r !! "name" = Some name
        ∧ (classified VSuccess r st st' ∨ classified VFailure r st st')
        ∧ pkg_version_calls st' = pkg_version_calls st ++ [name])
   ∨ (∃ e, classified VFailure (<["error" := YStr e]> r) st st'
        ∧ pkg_version_calls st' = pkg_version_calls st)).
Proof.
  intros [->|[->|[(name & Hn & [->| ->])|[e ->]]]]%audit_rule_cases.
  - by left.
  - right. by left.
  - right. right. left. exists name. split_and!; [done | by left | done].
  - right. right. left. exists name. split_and!; [done | by right | done].
  - right. right. right. by exists e.
Qed.

Lemma audit_rules_count pkg_version (rules : list rule) :
  ∀ st st', foldM (audit_rule pkg_version) st rules = Ok st' →
  (records st' ≤ records st + length rules)%nat
  ∧ (length (pkg_version_calls st') + (length (Success st) + length (Failure st))
     ≤ length (pkg_version_calls st) + (length (Success st') + length (Failure st')))%nat.
Proof.
  induction rules as [|r rules IH]; intros st st'; simpl.
  - intros [= <-]. lia.
  - destruct (audit_rule pkg_version st r) as [st1|e] eqn:E; simpl; [|done].
    intros H. destruct (IH _ _ H) as [H1 H2].
    apply audit_rule_cases in E.
    assert ((records st1 ≤ S (records st))%nat
            ∧ (length (pkg_version_calls st1)
               + (length (Success st) + length (Failure st))
               ≤ length (pkg_version_calls st)
                 + (length (Success st1) + length (Failure st1)))%nat) as [H3 H4].
    { unfold records.
      destruct E as [->|[->|[(name & _ & [->| ->])|[e ->]]]]; simpl;
        rewrite ?length_app; simpl; lia. }
    lia.
Qed.

(** X13: the verdicts hold at most one record per rule of the
    matching tags, and every call of the package query is paid back by a
    record in [Success] or [Failure]: a rule is never reported twice, and
    controlled rules and rules of other tags cost no query. *)
Theorem evaluate_counts
    (pkg_version : yaml → string) (fnmatch : string → string → bool)
    (tt : tagtable) (tags : string) (st : verdicts) :
  evaluate pkg_version fnmatch tt tags = Ok st →
  (records st
   ≤ length (concat (snd <$> filter (λ p, fnmatch p.1 tags = true) tt)))%nat
  ∧ (length (pkg_version_calls st)
     ≤ length (Success st) + length (Failure st))%nat.
Proof.
  unfold evaluate. rewrite evaluate_from. intros H.
  destruct (audit_rules_count _ _ _ _ H) as [H1 H2].
  unfold records in *. simpl in *. lia.
Qed.

(** X14: a version constraint without [=] is compared with the
    installed version as a string: the rule is Success when the two
    strings are the same and Failure otherwise, also when the loose
    comparison would find them equal. *)
Theorem exact_constraint
    (pkg_version : yaml → string) (st : verdicts) (r : rule) (name : yaml)
    (V : string) :
  whitelist_rule r name V → occurs "=" V = false →
  audit_rule pkg_version st r =
    Ok (if String.eqb (pkg_version name) V
        then to_Success r (called name st)
        else to_Failure r (called name st)).
Proof.
  intros H Hno. rewrite (audit_rule_version _ _ _ _ _ H).
  rewrite (split_version_no_sep _ Hno). simpl.
  by destruct (String.eqb _ _).
Qed.

Lemma component_cmp_eq (x y : component) : component_cmp x y = Eq ↔ x = y.
Proof.
  destruct x as [m|s], y as [n|t]; simpl; try (split; done).
  - rewrite N.compare_eq_iff. split; [by intros -> | by intros [= ->]].
  - split; [by intros ->%String.compare_eq_iff | intros [= ->]].
    pose proof (String.compare_antisym t t) as Ha.
    by destruct (String.compare t t).
Qed.

Lemma version_cmp_eq (a b : list component) : version_cmp a b = Eq ↔ a = b.
Proof.
  revert b. induction a as [|x a IH]; intros [|y b]; simpl; try (split; done).
  destruct (component_cmp x y) eqn:E.
  - apply component_cmp_eq in E as ->. rewrite IH.
    split; [by intros -> | by intros [= ->]].
  - split; [done | intros [= -> ->]].
    by rewrite (proj2 (component_cmp_eq y y) eq_refl) in E.
  - split; [done | intros [= -> ->]].
    by rewrite (proj2 (component_cmp_eq y y) eq_refl) in E.
Qed.

(** X15: with [X] not empty and the package installed (the query
    returns a string that is not empty), the rule under [<=X] is Success
    exactly when the installed version is loosely below or equal to [X],
    the rule under [>=X] exactly when it is loosely above or equal; at
    least one of the two is Success, and both are exactly when the two
    versions have the same components.  When the query returns the empty
    string, the evaluation of either rule raises [AttributeError]: the
    version object made from the empty string was never parsed. *)
Theorem ordered_constraints
    (pkg_version : yaml → string) (st : verdicts) (name : yaml)
    (r1 r2 : rule) (X : string) :
  X ≠ "" →
  whitelist_rule r1 name ("<=" +:+ X) →
  whitelist_rule r2 name (">=" +:+ X) →
  if truthy (pkg_version name) then
    let installed := parse (pkg_version name) in
    audit_rule pkg_version st r1
      = Ok (if version_le installed (parse X)
            then to_Success r1 (called name st) else to_Failure r1 (called name st))
    ∧ audit_rule pkg_version st r2
      = Ok (if version_ge installed (parse X)
            then to_Success r2 (called name st) else to_Failure r2 (called name st))
    ∧ (version_le installed (parse X) = true
       ∨ version_ge installed (parse X) = true)
    ∧ (version_le installed (parse X) = true
       ∧ version_ge installed (parse X) = true
       ↔ installed = parse X)
  else
    audit_rule pkg_version st r1 = Raise AttributeError
    ∧ audit_rule pkg_version st r2 = Raise AttributeError.
Proof.
  intros HX H1 H2.
  assert (E1 : audit_rule pkg_version st r1 =
    (le ← LooseVersion_le (LooseVersion (pkg_version name)) (LooseVersion X);
     if (le : bool) then Ok (to_Success r1 (called name st))
     else Ok (to_Failure r1 (called name st)))).
  { rewrite (audit_rule_version _ _ _ _ _ H1).
    change ("<=" +:+ X) with ("<" +:+ String "=" X).
    by rewrite (split_version_sep "<" X eq_refl HX). }
  assert (E2 : audit_rule pkg_version st r2 =
    (ge ← LooseVersion_ge (LooseVersion (pkg_version name)) (LooseVersion X);
     if (ge : bool) then Ok (to_Success r2 (called name st))
     else Ok (to_Failure r2 (called name st)))).
  { rewrite (audit_rule_version _ _ _ _ _ H2).
    change (">=" +:+ X) with (">" +:+ String "=" X).
    by rewrite (split_version_sep ">" X eq_refl HX). }
  rewrite E1, E2. unfold LooseVersion. rewrite (truthy_nonempty _ HX).
  destruct (truthy (pkg_version name)); simpl; [|done].
  split_and!.
  - by destruct (version_le _ _).
  - by destruct (version_ge _ _).
  - unfold version_le, version_ge. destruct (version_cmp _ _); auto.
  - rewrite <- version_cmp_eq. unfold version_le, version_ge.
    destruct (version_cmp _ _); split; try done; by intros [? ?].
Qed.

(** X16: a whitelist rule whose [version] is not a string (a sequence
    or a mapping) makes its evaluation raise [AttributeError], and the
    evaluation of a table that has it under a matching tag returns no
    verdicts. *)
Theorem evaluate_version_not_string
    (pkg_version : yaml → string) (fnmatch : string → string → bool)
    (tt : tagtable) (tags tag : string) (rules : list rule) (r : rule)
    (name v : yaml) :
  (tag, rules) ∈ tt → fnmatch tag tags = true → r ∈ rules →
  r !! "control" = None → r !! "name" = Some name →
  r !! "type" = Some (YStr "whitelist") →
  r !! "version" = Some v → (∀ s, v ≠ YStr s) →
  (∀ st, audit_rule pkg_version st r = Raise AttributeError)
  ∧ ¬ returns (evaluate pkg_version fnmatch tt tags).
Proof.
  intros Htt Hm Hr Hc Hn Ht Hv Hs.
  assert (Hraise : ∀ st, audit_rule pkg_version st r = Raise AttributeError).
  { intros st. unfold audit_rule, rule_has, rule_getitem.
    rewrite Hc, Hn, Ht, Hv. simpl.
    destruct v as [s|l|d]; [by destruct (Hs s) | done | done]. }
  split; [done|]. unfold evaluate.
  apply (foldM_not_returns _ _ _ Htt). intros st. rewrite Hm.
  apply (foldM_not_returns _ _ _ Hr). intros st'. rewrite Hraise.
  by intros [? ?].
Qed.

(** ** The aggregator *)

Lemma mapM_nil_inv {A B} (f : A → result B) (l : list A) :
  mapM f l = Ok [] → l = [].
Proof.
  destruct l as [|x l]; simpl; [done|].
  destruct (f x); simpl; [|done]. by destruct (mapM f l).
Qed.

Lemma mapM_elem_of {A B} (f : A → result B) (l : list A) (ys : list B) (y : B) :
  mapM f l = Ok ys → (y ∈ ys ↔ ∃ x, x ∈ l ∧ f x = Ok y).
Proof.
  revert ys. induction l as [|x l IH]; intros ys; simpl.
  - intros [= <-]. split; [by intros ?%elem_of_nil|].
    by intros (x & ?%elem_of_nil & _).
  - destruct (f x) as [y0|e] eqn:E; simpl; [|done].
    destruct (mapM f l) as [ys0|e]; simpl; [|done].
    intros [= <-]. rewrite elem_of_cons, (IH ys0 eq_refl). split.
    + intros [->|(x0 & Hin & Hx0)].
      * exists x. split; [left | done].
      * exists x0. split; [by right | done].
    + intros (x0 & [->|Hin]%elem_of_cons & Hx0).
      * left. congruence.
      * right. by exists x0.
Qed.

Lemma mapM_not_returns {A B} (f : A → result B) (l : list A) (x : A) :
  x ∈ l → ¬ returns (f x) → ¬ returns (mapM f l).
Proof.
  intros Hin Hx. induction l as [|y l IH]; [by apply elem_of_nil in Hin|].
  simpl. apply elem_of_cons in Hin as [->|Hin].
  - destruct (f y) as [b|e]; simpl; [|by intros [? ?]].
    destruct Hx. by eexists.
  - destruct (f y) as [b|e]; simpl; [|by intros [? ?]].
    destruct (mapM f l) as [ys|e]; simpl; [|by intros [? ?]].
    destruct (IH Hin). by eexists.
Qed.

Lemma first_occurrences_nil_inv {A} `{EqDecision A} (l : list A) :
  first_occurrences l = [] → l = [].
Proof. by destruct l. Qed.

(** X17: the report has no [Controlled] key exactly when no rule was
    controlled, with [verbose] and without. *)
Theorem controlled_key_absent (ret : verdicts) (verbose : bool) (rep : report) :
  aggregate ret verbose = Ok rep →
  (rControlled rep = None ↔ Controlled ret = []).
Proof.
  unfold aggregate. destruct verbose.
  - intros [= <-]. simpl. by destruct (Controlled ret).
  - rewrite !collapse_spec, collapse_controlled_spec.
    destruct (mapM brief_key (Failure ret)) as [kf|e]; simpl; [|done].
    destruct (mapM brief_key (Success ret)) as [ks|e]; simpl; [|done].
    destruct (mapM controlled_key (Controlled ret)) as [kc|e] eqn:Ec; simpl;
      [|done].
    intros [= <-]. simpl.
    destruct (Controlled ret) as [|r rs] eqn:Er.
    + simpl in Ec. by injection Ec as <-.
    + destruct kc as [|k kc]; [by apply mapM_nil_inv in Ec|].
      split; done.
Qed.

(** X18: without [verbose], an entry [{tag: description}] is in the
    [Success] bucket of the report exactly when some record of the raw
    [Success] bucket has that tag and that description, and the same for
    [Failure]: collapsing loses no pair and invents none. *)
Theorem collapse_keeps_pairs
    (ret : verdicts) (rep : report) (t : string) (d : option string) :
  aggregate ret false = Ok rep →
  (Brief t d ∈ rSuccess rep ↔ ∃ r, r ∈ Success ret ∧ brief_key r = Ok (t, d))
  ∧ (Brief t d ∈ rFailure rep ↔ ∃ r, r ∈ Failure ret ∧ brief_key r = Ok (t, d)).
Proof.
  unfold aggregate. rewrite !collapse_spec, collapse_controlled_spec.
  destruct (mapM brief_key (Failure ret)) as [kf|e] eqn:Ef; simpl; [|done].
  destruct (mapM brief_key (Success ret)) as [ks|e] eqn:Es; simpl; [|done].
  destruct (mapM controlled_key (Controlled ret)) as [kc|e]; simpl; [|done].
  intros [= <-]. simpl.
  change (Brief t d) with (brief (t, d)).
  rewrite !list_elem_of_fmap_inj by apply _.
  rewrite !first_occurrences_elem_of.
  by rewrite (mapM_elem_of _ _ _ _ Es), (mapM_elem_of _ _ _ _ Ef).
Qed.

(** X19: a record whose [description] is not a string (a sequence or
    a mapping) makes the aggregation without [verbose] raise, whichever
    bucket holds it; with [verbose] the aggregation always returns. *)
Theorem aggregate_unhashable_description
    (ret : verdicts) (r : rule) (v : yaml) :
  r ∈ Success ret ++ Failure ret ++ Controlled ret →
  r !! "description" = Some v → (∀ s, v ≠ YStr s) →
  ¬ returns (aggregate ret false) ∧ returns (aggregate ret true).
Proof.
  intros Hin Hd Hv. split; [|by eexists].
  assert (Hb : ¬ returns (brief_key r)).
  { unfold brief_key. destruct (rule_getitem "tag" r) as [tag|e]; simpl;
      [|by intros [? ?]].
    destruct (hashable tag) as [t|e]; simpl; [|by intros [? ?]].
    rewrite Hd. simpl.
    destruct v as [s|l|d]; [by destruct (Hv s) | by intros [? ?] | by intros [? ?]]. }
  assert (Hc : ¬ returns (controlled_key r)).
  { unfold controlled_key. destruct (rule_getitem "tag" r) as [tag|e]; simpl;
      [|by intros [? ?]].
    destruct (hashable tag) as [t|e]; simpl; [|by intros [? ?]].
    rewrite Hd. simpl.
    destruct v as [s|l|d]; [by destruct (Hv s) | by intros [? ?] | by intros [? ?]]. }
  unfold aggregate. rewrite !collapse_spec, collapse_controlled_spec.
  apply elem_of_app in Hin as [Hin|Hin]; [|apply elem_of_app in Hin as [Hin|Hin]].
  - pose proof (mapM_not_returns _ _ _ Hin Hb) as Hs.
    destruct (mapM brief_key (Failure ret)); simpl; [|by intros [? ?]].
    destruct (mapM brief_key (Success ret)); simpl; [|by intros [? ?]].
    destruct Hs. by eexists.
  - pose proof (mapM_not_returns _ _ _ Hin Hb) as Hf.
    destruct (mapM brief_key (Failure ret)); simpl; [|by intros [? ?]].
    destruct Hf. by eexists.
  - pose proof (mapM_not_returns _ _ _ Hin Hc) as Hk.
    destruct (mapM brief_key (Failure ret)); simpl; [|by intros [? ?]].
    destruct (mapM brief_key (Success ret)); simpl; [|by intros [? ?]].
    destruct (mapM controlled_key (Controlled ret)); simpl; [|by intros [? ?]].
    destruct Hk. by eexists.
Qed.

End Further.

(** * Concrete inputs

    The runs below are made with a [dict] that keeps its keys as they
    came; where a run iterates a [dict] of several keys that the code
    has built, what is stated of it does not depend on their order. *)

#[global] Existing Instance insertion_order.

(** ** The claims on concrete inputs *)

(** C1 fails as stated: the audit spec and the item both give a
    [description]; the resolved rule carries the one of the audit spec,
    where the specified overlay would carry the one of the item. *)
Lemma C1_counterexample :
  dict_get "description" described_audit = Some (YStr "RSH is awesome")
  ∧ split_tagspec described_tagspec
    = Ok (YStr "CIS-2.1.3", {["description" := YStr "rsh must be there"]})
  ∧ last_field "CIS-2.1.3" "description"
      (resolve_item "whitelist" described_audit [] "rsh" described_tagspec)
    = Some (YStr "RSH is awesome")
  ∧ overlay_as_specified "whitelist" described_audit "rsh" (YStr "CIS-2.1.3")
      {["description" := YStr "rsh must be there"]} !! "description"
    = Some (YStr "rsh must be there")
  ∧ audit None (inventory [("rsh", "0.17")]) any_tag [described_policy] "*" false
    = Ok (Report [Brief "CIS-2.1.3" (Some "RSH is awesome")] [] None).
Proof. split_and!; vm_compute; reflexivity. Qed.

Lemma C1_witness :
  ∃ ret', resolve_item "whitelist" described_audit [] "rsh" described_tagspec = Ok ret'
    ∧ tt_get "CIS-2.1.3" ret'
      = Some [overlay_as_built "whitelist" described_audit "rsh" (YStr "CIS-2.1.3")
                {["description" := YStr "rsh must be there"]}].
Proof.
  refine (proj1 (C1_audit_spec_fields_win "whitelist" described_audit [] "rsh"
    described_tagspec (YStr "CIS-2.1.3")
    {["description" := YStr "rsh must be there"]} "CIS-2.1.3" _ _ _)).
  - vm_compute. reflexivity.
  - reflexivity.
  - eexists. reflexivity.
Defined.

(** C2 fails as stated: with [rsh] installed at [4.3.2], the rule whose
    constraint is [=4.3.2] lands in Success, and its record has no
    [error] field. *)
Lemma C2_counterexample :
  partition "=" "=4.3.2" = ("", "=", "4.3.2")
  ∧ audit_rule (inventory [("rsh", "4.3.2")]) no_verdicts (rsh_rule "=4.3.2")
    = Ok (Verdicts [rsh_rule "=4.3.2"] [] [] [YStr "rsh"])
  ∧ rsh_rule "=4.3.2" !! "error" = None
  ∧ audit None (inventory [("rsh", "4.3.2")]) any_tag [version_policy "=4.3.2"] "*" true
    = Ok (Report [Full (rsh_rule "=4.3.2")] [] None).
Proof. split_and!; vm_compute; reflexivity. Qed.

Lemma C2_witness :
  audit_rule (inventory [("rsh", "4.3.1")]) no_verdicts (rsh_rule "=4.3.2")
  = Ok (to_Failure (rsh_rule "=4.3.2") (called (YStr "rsh") no_verdicts)).
Proof.
  refine (C2_empty_prefix_is_exact_match (inventory [("rsh", "4.3.1")])
    no_verdicts (rsh_rule "=4.3.2") (YStr "rsh") "4.3.2" _).
  repeat split; vm_compute; reflexivity.
Defined.

(** C3 fails as stated: the constraint [~4.3.2] holds no [=], so nothing
    is split off it: it is an exact-match constraint.  With [rsh]
    installed at [4.3.2] the rule is a Failure whose record has no
    [error] field, and with an installed version string [~4.3.2] it is a
    Success.  The constraint [~=], with nothing after the separator, is
    an exact-match constraint as well. *)
Lemma C3_counterexample :
  split_version "~4.3.2" = ("", "~4.3.2")
  ∧ audit_rule (inventory [("rsh", "4.3.2")]) no_verdicts (rsh_rule "~4.3.2")
    = Ok (Verdicts [] [rsh_rule "~4.3.2"] [] [YStr "rsh"])
  ∧ rsh_rule "~4.3.2" !! "error" = None
  ∧ audit_rule (inventory [("rsh", "~4.3.2")]) no_verdicts (rsh_rule "~4.3.2")
    = Ok (Verdicts [rsh_rule "~4.3.2"] [] [] [YStr "rsh"])
  ∧ audit None (inventory [("rsh", "4.3.2")]) any_tag [version_policy "~4.3.2"] "*" true
    = Ok (Report [] [Full (rsh_rule "~4.3.2")] None)
  ∧ split_version "~=" = ("", "~")
  ∧ audit_rule (inventory [("rsh", "4.3.2")]) no_verdicts (rsh_rule "~=")
    = Ok (Verdicts [] [rsh_rule "~="] [] [YStr "rsh"]).
Proof. split_and!; vm_compute; reflexivity. Qed.

Lemma C3_witness :
  audit_rule (inventory [("rsh", "4.3.2")]) no_verdicts (rsh_rule "~=4.3.2")
  = Ok (to_Failure (<["error" := YStr "Invalid modifier ~"]> (rsh_rule "~=4.3.2"))
          no_verdicts).
Proof.
  refine (proj1 (C3_invalid_modifier_is_reported (inventory [("rsh", "4.3.2")])
    no_verdicts (rsh_rule "~=4.3.2") (YStr "rsh") "~" "4.3.2" [] _ _ _ _ _ _)).
  - repeat split; vm_compute; reflexivity.
  - reflexivity.
  - discriminate.
  - discriminate.
  - discriminate.
  - discriminate.
Defined.

Lemma C4_witness :
  (∃ st', audit_rule (inventory [("rsh-server", "0.17")]) no_verdicts telnet_rule = Ok st'
     ∧ (classified VSuccess telnet_rule no_verdicts st'
        ↔ inventory [("rsh-server", "0.17")] (YStr "telnet") = "")
     ∧ (classified VFailure telnet_rule no_verdicts st'
        ↔ inventory [("rsh-server", "0.17")] (YStr "telnet") ≠ ""))
  ∧ (∃ st', audit_rule (inventory [("rsh-server", "0.17")]) no_verdicts rsh_server_rule = Ok st'
     ∧ (classified VSuccess rsh_server_rule no_verdicts st'
        ↔ inventory [("rsh-server", "0.17")] (YStr "rsh-server") ≠ "")
     ∧ (classified VFailure rsh_server_rule no_verdicts st'
        ↔ inventory [("rsh-server", "0.17")] (YStr "rsh-server") = "")).
Proof.
  refine (C4_presence_rules (inventory [("rsh-server", "0.17")]) no_verdicts
    telnet_rule rsh_server_rule (YStr "telnet") (YStr "rsh-server") _ _ _ _ _ _ _);
    vm_compute; reflexivity.
Defined.

Lemma C5_witness :
  evaluate (inventory []) any_tag [("telnet-bad", [controlled_rule])] "*"
  = Ok (Verdicts [] [] [controlled_rule] [])
  ∧ controlled_rule ∈ Controlled (Verdicts [] [] [controlled_rule] [])
  ∧ (controlled_rule ∉ Success (Verdicts [] [] [controlled_rule] []))
  ∧ (controlled_rule ∉ Failure (Verdicts [] [] [controlled_rule] [])).
Proof.
  split; [vm_compute; reflexivity|].
  refine (proj2 (C5_control_short_circuits (inventory []) any_tag
    [("telnet-bad", [controlled_rule])] "*" "telnet-bad" [controlled_rule]
    controlled_rule _ _ _ _) (Verdicts [] [] [controlled_rule] []) _).
  - left.
  - reflexivity.
  - left.
  - eexists. vm_compute. reflexivity.
  - vm_compute. reflexivity.
Defined.



Lemma C6_witness :
  select_bucket (Some "CentOS Linux-7") rsh_buckets
  = YSeq [YMap [("rsh", YStr "CIS-2.1.3")]; YMap [("rsh-server", YStr "CIS-2.1.4")]]
  ∧ resolve_audit (Some "CentOS Linux-7") "whitelist" [] (YMap rsh_audit)
    = resolve_items "whitelist" rsh_audit []
        (normalize_bucket
           (YSeq [YMap [("rsh", YStr "CIS-2.1.3")];
                  YMap [("rsh-server", YStr "CIS-2.1.4")]])).
Proof.
  refine (C6_exact_match_first "CentOS Linux-7" "whitelist" [] rsh_audit
            rsh_buckets _).
  reflexivity.
Defined.

Lemma C7_witness :
  aggregate repeated_verdicts true
    = Ok (Report (Full <$> Success repeated_verdicts)
                 (Full <$> Failure repeated_verdicts)
                 (drop_empty (Full <$> Controlled repeated_verdicts)))
  ∧ default [] (drop_empty (Full <$> Controlled repeated_verdicts))
    = Full <$> Controlled repeated_verdicts
  ∧ ∃ rep, aggregate repeated_verdicts false = Ok rep
      ∧ rSuccess rep
        = brief <$> first_occurrences
            [("telnet-bad", None); ("CIS-2.1.4", None); ("telnet-bad", None)]
      ∧ rFailure rep = brief <$> first_occurrences [("CIS-2.1.3", None)]
      ∧ rControlled rep
        = drop_empty (brief_controlled <$> first_occurrences
            [("telnet-bad", None, "accepted risk");
             ("telnet-bad", None, "accepted risk")])
      ∧ NoDup (rSuccess rep) ∧ NoDup (rFailure rep)
      ∧ NoDup (default [] (rControlled rep)).
Proof.
  refine (C7_aggregation repeated_verdicts _ _ _ _ _ _);
    vm_compute; reflexivity.
Defined.

Lemma C8_witness :
  resolve_audit None "whitelist" [] (YMap mapping_audit)
  = resolve_audit None "whitelist" [] (YMap sequence_audit)
  ∧ returns (resolve_audit None "whitelist" [] (YMap mapping_audit)).
Proof.
  destruct (C8_mapping_bucket_is_normalized None "whitelist" [] mapping_audit
    sequence_audit
    [("*", YMap [("rsh", YStr "CIS-2.1.3");
                 ("rsh-server", YMap [("tag", YStr "CIS-2.1.4")])])]
    [("*", YSeq [YMap [("rsh", YStr "CIS-2.1.3")];
                 YMap [("rsh-server", YMap [("tag", YStr "CIS-2.1.4")])]])]
    [("rsh", YStr "CIS-2.1.3"); ("rsh-server", YMap [("tag", YStr "CIS-2.1.4")])])
    as (_ & Heq & Hret).
  - reflexivity.
  - reflexivity.
  - vm_compute. reflexivity.
  - reflexivity.
  - reflexivity.
  - split; [exact Heq|]. apply Hret.
    repeat constructor. exists "CIS-2.1.4". reflexivity.
Defined.

Lemma C9_witness :
  resolve_item "whitelist" untagged_audit [] "rsh" (YMap [("version", YStr "4.3.2")])
  = Raise (KeyError "tag")
  ∧ ¬ returns (_get_tags None untagged_merged).
Proof.
  destruct (C9_tag_is_required None [("version", YStr "4.3.2")] eq_refl)
    as [Hitem Htags].
  split; [apply Hitem|].
  apply (Htags untagged_merged "rsh").
  exists [("whitelist", YSeq [YMap [("rsh", YMap untagged_audit)]])],
    "whitelist", (YSeq [YMap [("rsh", YMap untagged_audit)]]),
    (YMap [("rsh", YMap untagged_audit)]), [("rsh", YMap untagged_audit)],
    "rsh", untagged_audit,
    [("*", YSeq [YMap [("rsh", YMap [("version", YStr "4.3.2")])]])],
    (YMap [("rsh", YMap [("version", YStr "4.3.2")])]),
    [("rsh", YMap [("version", YStr "4.3.2")])].
  split_and!; first [reflexivity | left].
Defined.

(** ** The whole [audit] on the sample policy *)

(** What the two first stages make of [version_policy]. *)
Example resolve_version_policy (v : string) :
  (__data__ ← foldM _merge_yaml [] [version_policy v]; _get_tags None (YMap __data__))
  = Ok [("CIS-2.1.3", [rsh_rule v])].
Proof. vm_compute. reflexivity. Qed.

(** The merger turns each category of a document into a list of
    one-entry mappings. *)
Example merge_untagged :
  foldM _merge_yaml [] [untagged_policy]
  = Ok [("pkg", YMap [("whitelist", YSeq [YMap [("rsh", YMap untagged_audit)]])])].
Proof. reflexivity. Qed.

(** A detailed TagSpec without [tag] makes the whole audit raise. *)
Example audit_untagged :
  audit None (inventory []) any_tag [untagged_policy] "*" false
  = Raise (KeyError "tag").
Proof. vm_compute. reflexivity. Qed.

(** [telnet] is not installed on a host without a bucket of its own. *)
Example audit_telnet_absent :
  audit (Some "Debian-8") (inventory []) literal_tag [sample_policy] "telnet-bad" false
  = Ok (Report [Brief "telnet-bad" (Some "Telnet is evil")] [] None).
Proof. vm_compute. reflexivity. Qed.

(** [rsh] must be at [4.3.2] on CentOS 6 and is at [4.3.1]; [rsh-client]
    is recent enough. *)
Example audit_rsh_older :
  audit (Some "CentOS Linux-6") (inventory [("rsh", "4.3.1"); ("rsh-client", "4.3.2")])
    literal_tag [sample_policy] "CIS-2.1.3" false
  = Ok (Report [Brief "CIS-2.1.3" (Some "RSH is awesome")]
               [Brief "CIS-2.1.3" (Some "RSH is awesome")] None).
Proof. vm_compute. reflexivity. Qed.

(** With [rsh-client] not installed, its constraint [>=4.3.2] makes the
    audit raise. *)
Example audit_rsh_client_absent :
  audit (Some "CentOS Linux-6") (inventory [("rsh", "4.3.1")]) literal_tag
    [sample_policy] "CIS-2.1.3" false
  = Raise AttributeError.
Proof. vm_compute. reflexivity. Qed.

(** The same with [rsh] and [rsh-client] at [4.3.2]. *)
Example audit_rsh_exact :
  audit (Some "CentOS Linux-6") (inventory [("rsh", "4.3.2"); ("rsh-client", "4.3.2")])
    literal_tag [sample_policy] "CIS-2.1.3" false
  = Ok (Report [Brief "CIS-2.1.3" (Some "RSH is awesome")] [] None).
Proof. vm_compute. reflexivity. Qed.

(** ** The further properties on concrete inputs *)

Lemma merge_documents_witness :
  ∃ ret, foldM _merge_yaml [] [sample_policy; untagged_policy] = Ok ret
    ∧ merged_category "blacklist" ret
      = Some (YSeq [YMap [("telnet", YMap telnet_audit)]])
    ∧ merged_category "whitelist" ret
      = Some (YSeq [YMap [("rsh", YMap rsh_audit)];
                    YMap [("rsh", YMap untagged_audit)]]).
Proof.
  refine (merge_documents [sample_policy; untagged_policy] _).
  repeat constructor.
Defined.

Lemma audit_document_not_mapping_witness :
  (∀ ret, _merge_yaml ret (YSeq []) = Raise AttributeError)
  ∧ ¬ returns (audit None (inventory []) any_tag [sample_policy; YSeq []] "*" false).
Proof.
  refine (audit_document_not_mapping None (inventory []) any_tag
            [sample_policy; YSeq []] (YSeq []) "*" false _ _).
  - right. left.
  - discriminate.
Defined.

Lemma resolve_audit_data_edge_witness :
  resolve_audit None "whitelist" [] (YMap [("description", YStr "RSH is awesome")])
  = Ok []
  ∧ resolve_audit None "whitelist" [] (YMap [("data", YSeq [])])
    = Raise AttributeError.
Proof.
  split.
  - refine (proj1 (resolve_audit_data_edge None "whitelist" []
              [("description", YStr "RSH is awesome")]) _).
    reflexivity.
  - refine (proj2 (resolve_audit_data_edge None "whitelist" []
              [("data", YSeq [])]) (YSeq []) _ _).
    + reflexivity.
    + discriminate.
Defined.

Lemma resolve_item_appends_witness :
  ∃ ret', resolve_item "whitelist" described_audit [("telnet-bad", [telnet_rule])]
            "rsh" described_tagspec = Ok ret'
    ∧ ret'.*1 ≡ₚ ["telnet-bad"; "CIS-2.1.3"]
    ∧ (∀ k, k ≠ "CIS-2.1.3" →
         tt_get k ret' = tt_get k [("telnet-bad", [telnet_rule])])
    ∧ (∃ r, tt_get "CIS-2.1.3" ret' = Some [r]).
Proof.
  refine (resolve_item_appends "whitelist" described_audit
    [("telnet-bad", [telnet_rule])] "rsh" described_tagspec (YStr "CIS-2.1.3")
    {["description" := YStr "rsh must be there"]} "CIS-2.1.3" _ _ _ _).
  - vm_compute. reflexivity.
  - reflexivity.
  - eexists. reflexivity.
  - repeat constructor. by intros ?%elem_of_nil.
Defined.

Lemma resolved_table_invariant_witness : NoDup sample_table.*1.
Proof.
  refine (proj1 (resolved_table_invariant (Some "CentOS Linux-6") sample_merged
            sample_table _)).
  vm_compute. reflexivity.
Defined.

Lemma evaluate_resolved_table_witness :
  returns (evaluate (inventory [("rsh", "4.3.2")]) any_tag sample_table "*")
  ∨ evaluate (inventory [("rsh", "4.3.2")]) any_tag sample_table "*"
    = Raise AttributeError.
Proof.
  refine (evaluate_resolved_table (Some "CentOS Linux-6")
            (inventory [("rsh", "4.3.2")]) any_tag sample_merged sample_table "*" _).
  vm_compute. reflexivity.
Defined.

Lemma resolve_item_unhashable_tag_witness :
  resolve_item "whitelist" described_audit [] "rsh" (YSeq [YStr "CIS-2.1.3"])
  = Raise TypeError.
Proof.
  refine (resolve_item_unhashable_tag "whitelist" described_audit [] "rsh"
            (YSeq [YStr "CIS-2.1.3"]) (YSeq [YStr "CIS-2.1.3"]) ∅ _ _).
  - reflexivity.
  - discriminate.
Defined.

Lemma evaluate_matching_tags_witness :
  evaluate (inventory []) literal_tag [("telnet-bad", [telnet_rule])] "CIS-2.1.3"
  = Ok no_verdicts.
Proof.
  refine (proj2 (evaluate_matching_tags (inventory []) literal_tag
            [("telnet-bad", [telnet_rule])] "CIS-2.1.3") _).
  intros tag Hin. apply list_elem_of_singleton in Hin. rewrite Hin. reflexivity.
Defined.

Lemma audit_rule_unknown_type_witness :
  audit_rule (inventory [("telnet", "0.17")]) no_verdicts greylist_rule
  = Ok no_verdicts.
Proof.
  refine (audit_rule_unknown_type (inventory [("telnet", "0.17")]) no_verdicts
            greylist_rule (YStr "telnet") (YStr "greylist") _ _ _ _ _).
  - vm_compute. reflexivity.
  - vm_compute. reflexivity.
  - vm_compute. reflexivity.
  - discriminate.
  - discriminate.
Defined.

Lemma audit_rule_one_verdict_witness :
  to_Failure telnet_rule (called (YStr "telnet") no_verdicts) = no_verdicts
  ∨ (classified VControlled telnet_rule no_verdicts
       (to_Failure telnet_rule (called (YStr "telnet") no_verdicts))
     ∧ pkg_version_calls (to_Failure telnet_rule (called (YStr "telnet") no_verdicts))
       = pkg_version_calls no_verdicts)
  ∨ (∃ name, telnet_rule !! "name" = Some name
       ∧ (classified VSuccess telnet_rule no_verdicts
            (to_Failure telnet_rule (called (YStr "telnet") no_verdicts))
          ∨ classified VFailure telnet_rule no_verdicts
              (to_Failure telnet_rule (called (YStr "telnet") no_verdicts)))
       ∧ pkg_version_calls (to_Failure telnet_rule (called (YStr "telnet") no_verdicts))
         = pkg_version_calls no_verdicts ++ [name])
  ∨ (∃ e, classified VFailure (<["error" := YStr e]> telnet_rule) no_verdicts
            (to_Failure telnet_rule (called (YStr "telnet") no_verdicts))
       ∧ pkg_version_calls (to_Failure telnet_rule (called (YStr "telnet") no_verdicts))
         = pkg_version_calls no_verdicts).
Proof.
  refine (audit_rule_one_verdict (inventory [("telnet", "0.17")]) no_verdicts
            (to_Failure telnet_rule (called (YStr "telnet") no_verdicts))
            telnet_rule _).
  vm_compute. reflexivity.
Defined.

Lemma evaluate_counts_witness :
  (records (Verdicts [] [telnet_rule] [controlled_rule] [YStr "telnet"]) ≤ 2)%nat
  ∧ (length (pkg_version_calls
               (Verdicts [] [telnet_rule] [controlled_rule] [YStr "telnet"]))
     ≤ 0 + 1)%nat.
Proof.
  refine (evaluate_counts (inventory [("telnet", "0.17")]) any_tag
            [("telnet-bad", [telnet_rule; controlled_rule])] "*"
            (Verdicts [] [telnet_rule] [controlled_rule] [YStr "telnet"]) _).
  vm_compute. reflexivity.
Defined.

Lemma exact_constraint_witness :
  audit_rule (inventory [("rsh", "4.3.02")]) no_verdicts (rsh_rule "4.3.2")
  = Ok (to_Failure (rsh_rule "4.3.2") (called (YStr "rsh") no_verdicts)).
Proof.
  refine (exact_constraint (inventory [("rsh", "4.3.02")]) no_verdicts
            (rsh_rule "4.3.2") (YStr "rsh") "4.3.2" _ _).
  - repeat split; vm_compute; reflexivity.
  - reflexivity.
Defined.

Lemma ordered_constraints_witness :
  (audit_rule (inventory [("rsh", "4.3.02")]) no_verdicts (rsh_rule "<=4.3.2")
   = Ok (to_Success (rsh_rule "<=4.3.2") (called (YStr "rsh") no_verdicts))
   ∧ audit_rule (inventory [("rsh", "4.3.02")]) no_verdicts (rsh_rule ">=4.3.2")
     = Ok (to_Success (rsh_rule ">=4.3.2") (called (YStr "rsh") no_verdicts)))
  ∧ (audit_rule (inventory []) no_verdicts (rsh_rule "<=4.3.2")
     = Raise AttributeError
     ∧ audit_rule (inventory []) no_verdicts (rsh_rule ">=4.3.2")
       = Raise AttributeError).
Proof.
  split.
  - destruct (ordered_constraints (inventory [("rsh", "4.3.02")]) no_verdicts
                (YStr "rsh") (rsh_rule "<=4.3.2") (rsh_rule ">=4.3.2") "4.3.2")
      as (H1 & H2 & _).
    + discriminate.
    + repeat split; vm_compute; reflexivity.
    + repeat split; vm_compute; reflexivity.
    + split; [exact H1 | exact H2].
  - refine (ordered_constraints (inventory []) no_verdicts
              (YStr "rsh") (rsh_rule "<=4.3.2") (rsh_rule ">=4.3.2") "4.3.2" _ _ _).
    + discriminate.
    + repeat split; vm_compute; reflexivity.
    + repeat split; vm_compute; reflexivity.
Defined.

Lemma evaluate_version_not_string_witness :
  (∀ st, audit_rule (inventory [("rsh", "4.3.2")]) st listed_version_rule
         = Raise AttributeError)
  ∧ ¬ returns (evaluate (inventory [("rsh", "4.3.2")]) any_tag
                 [("CIS-2.1.3", [listed_version_rule])] "*").
Proof.
  refine (evaluate_version_not_string (inventory [("rsh", "4.3.2")]) any_tag
            [("CIS-2.1.3", [listed_version_rule])] "*" "CIS-2.1.3"
            [listed_version_rule] listed_version_rule (YStr "rsh")
            (YSeq [YStr "4.3.2"]) _ _ _ _ _ _ _ _).
  - left.
  - reflexivity.
  - left.
  - vm_compute. reflexivity.
  - vm_compute. reflexivity.
  - vm_compute. reflexivity.
  - vm_compute. reflexivity.
  - discriminate.
Defined.

Lemma controlled_key_absent_witness :
  Some [BriefControlled "telnet-bad" None "accepted risk"] = None
  ↔ Controlled repeated_verdicts = [].
Proof.
  refine (controlled_key_absent repeated_verdicts false
            (Report [Brief "telnet-bad" None; Brief "CIS-2.1.4" None]
                    [Brief "CIS-2.1.3" None]
                    (Some [BriefControlled "telnet-bad" None "accepted risk"])) _).
  vm_compute. reflexivity.
Defined.

Lemma collapse_keeps_pairs_witness :
  (Brief "CIS-2.1.4" None ∈ [Brief "telnet-bad" None; Brief "CIS-2.1.4" None]
   ↔ ∃ r, r ∈ Success repeated_verdicts ∧ brief_key r = Ok ("CIS-2.1.4", None))
  ∧ (Brief "CIS-2.1.4" None ∈ [Brief "CIS-2.1.3" None]
     ↔ ∃ r, r ∈ Failure repeated_verdicts ∧ brief_key r = Ok ("CIS-2.1.4", None)).
Proof.
  refine (collapse_keeps_pairs repeated_verdicts
            (Report [Brief "telnet-bad" None; Brief "CIS-2.1.4" None]
                    [Brief "CIS-2.1.3" None]
                    (Some [BriefControlled "telnet-bad" None "accepted risk"]))
            "CIS-2.1.4" None _).
  vm_compute. reflexivity.
Defined.

Lemma aggregate_unhashable_description_witness :
  ¬ returns (aggregate (Verdicts [] [listed_description_rule] [] []) false)
  ∧ returns (aggregate (Verdicts [] [listed_description_rule] [] []) true).
Proof.
  refine (aggregate_unhashable_description
            (Verdicts [] [listed_description_rule] [] []) listed_description_rule
            (YSeq [YStr "Telnet"; YStr "is evil"]) _ _ _).
  - left.
  - vm_compute. reflexivity.
  - discriminate.
Defined.
